(** * Retrieval core of the FAQ chatbot: a shallow embedding

    The development follows the three JavaScript sources of the retrieval
    core:

    - the chatbot Lambda ([handler], [loadFaqEmbeddings], [cosineSimilarity],
      [findRelevantChunks], [buildContext], [generateAnswer]);
    - the FAQ document processor ([processFaqDocuments], [chunkDocument]);
    - the content-manager Lambda ([handleProcessEmbeddings], [chunkDocument]).

    JavaScript numbers are IEEE-754 binary64 values.  The numeric code is
    written once, over an interface [JsNumber], and read at two instances:
    the kernel's primitive floats (what the program computes) and the real
    numbers (the arithmetic the specification reasons in). *)

From Stdlib Require Import ZArith List String Ascii Bool Lia.
From Stdlib Require Import Floats Reals Lra Psatz Sorting.Sorted.
From stdpp Require Import base tactics option list strings pretty sorting.

Set Default Proof Using "Type".

(** ** Completions of JavaScript code *)

(** A thrown [Error] object: its [name] and [message] properties. *)
Record JsError := mkError { err_name : string; err_message : string }.

Inductive Outcome (A : Type) : Type :=
| Ok (a : A)
| Throw (e : JsError).
Arguments Ok {A} a.
Arguments Throw {A} e.

(** [new Error(msg)]: the name of a plain error is "Error". *)
Definition Error (msg : string) : JsError := mkError "Error" msg.

(** [new TypeError(msg)], as raised by the engine itself. *)
Definition TypeError (msg : string) : JsError := mkError "TypeError" msg.

(** ** Numbers *)

(** The operations the sources apply to numbers.  [num_is_zero x] is
    [x === 0], [num_pos x] is [x > 0]. *)
Class JsNumber (num : Type) := {
  num_zero : num;
  num_add : num -> num -> num;
  num_sub : num -> num -> num;
  num_mul : num -> num -> num;
  num_div : num -> num -> num;
  num_sqrt : num -> num;
  num_is_zero : num -> bool;
  num_pos : num -> bool
}.

(** What the engine computes: binary64 with round-to-nearest-even.  IEEE
    comparison makes [NaN === 0] and [NaN > 0] false and [-0 === 0] true. *)
#[export] Instance float_JsNumber : JsNumber float := {|
  num_zero := 0%float;
  num_add := PrimFloat.add;
  num_sub := PrimFloat.sub;
  num_mul := PrimFloat.mul;
  num_div := PrimFloat.div;
  num_sqrt := PrimFloat.sqrt;
  num_is_zero := fun x => PrimFloat.eqb x 0%float;
  num_pos := fun x => PrimFloat.ltb 0%float x
|}.


(** ** Cosine similarity (chatbot Lambda) *)

Section Cosine.
Context {num : Type} `{JsNumber num}.

(** The [for] loop of [cosineSimilarity]: the three accumulators
    [dotProduct], [normA], [normB], updated left to right. *)
Fixpoint cosine_loop (vecA vecB : list num) (acc : num * num * num)
  : num * num * num :=
  match vecA, vecB with
  | a :: vecA', b :: vecB' =>
      let '(dotProduct, normA, normB) := acc in
      cosine_loop vecA' vecB'
        (num_add dotProduct (num_mul a b),
         num_add normA (num_mul a a),
         num_add normB (num_mul b b))
  | _, _ => acc
  end.

Definition cosineSimilarity (vecA vecB : list num) : Outcome num :=
  if negb (Nat.eqb (length vecA) (length vecB)) then
    Throw (Error "Vectors must have the same length")
  else
    let '(dotProduct, normA, normB) :=
      cosine_loop vecA vecB (num_zero, num_zero, num_zero) in
    let denominator := num_mul (num_sqrt normA) (num_sqrt normB) in
    if num_is_zero denominator then Ok num_zero
    else Ok (num_div dotProduct denominator).

End Cosine.

(** ** Strings and arrays: the built-ins the sources call *)

(** Strings are sequences of code units; the model keeps the units below
    256.  Among those, [String.prototype.trim] and the regular-expression
    class [\s] treat tab, line feed, vertical tab, form feed, carriage
    return, space and no-break space as white space. *)
Definition is_whitespace (c : ascii) : bool :=
  let n := nat_of_ascii c in
  (Nat.leb 9 n && Nat.leb n 13) || Nat.eqb n 32 || Nat.eqb n 160.

Fixpoint trim_start (l : list ascii) : list ascii :=
  match l with
  | c :: l' => if is_whitespace c then trim_start l' else l
  | [] => []
  end.

(** [s.trim()] *)
Definition trim (s : string) : string :=
  string_of_list_ascii
    (rev (trim_start (rev (trim_start (list_ascii_of_string s))))).

(** The index a relative argument of [slice] denotes in a sequence of
    length [len]: negative arguments count from the end. *)
Definition relative_index (len : nat) (i : Z) : nat :=
  if (i <? 0)%Z then Z.to_nat (Z.max (Z.of_nat len + i) 0)
  else Z.to_nat (Z.min i (Z.of_nat len)).

(** [s.slice(start)] *)
Definition string_slice_from (s : string) (start : Z) : string :=
  let l := list_ascii_of_string s in
  string_of_list_ascii (drop (relative_index (length l) start) l).

(** [a.slice(0, end)] on the elements of an array. *)
Definition slice0 {A} (l : list A) (end_ : Z) : list A :=
  take (relative_index (length l) end_) l.

(** [Array.prototype.sort(comparefn)].  ECMAScript fixes the result only
    for a consistent comparator, where every stable sort returns the same
    array; the model is the stable insertion sort.  [gt x y] is
    [comparefn(x, y) > 0]: [y] has to come before [x]. *)
Section Sort.
Context {A : Type} (gt : A -> A -> bool).

Fixpoint sort_insert (x : A) (l : list A) : list A :=
  match l with
  | [] => [x]
  | y :: l' => if gt x y then y :: sort_insert x l' else x :: l
  end.

Fixpoint js_sort (l : list A) : list A :=
  match l with
  | [] => []
  | x :: l' => sort_insert x (js_sort l')
  end.

End Sort.

Definition newline : string := String (ascii_of_nat 10) EmptyString.

(** [l.join(sep)] *)
Fixpoint join (sep : string) (l : list string) : string :=
  match l with
  | [] => ""
  | [s] => s
  | s :: l' => s +:+ sep +:+ join sep l'
  end.

(** ** Records of the embeddings file *)

Record Metadata := mkMetadata {
  source : string;
  category : string;
  chunkIndex : nat;
  totalChunks : nat;
  lastUpdated : option string
}.

(** One element of the embeddings array.  [similarity] is absent from the
    persisted layout; [findRelevantChunks] adds it on its copies. *)
Record Item (num : Type) := mkItem {
  id : string;
  text : string;
  embedding : list num;
  metadata : Metadata;
  similarity : option num
}.
Arguments mkItem {num}.
Arguments id {num}.
Arguments text {num}.
Arguments embedding {num}.
Arguments metadata {num}.
Arguments similarity {num}.

(** ** The object store *)

(** Arrays and objects are reference values.  A location holds an array of
    references or a record object; [Array.prototype.sort] writes in place,
    [map], [slice] and object spread allocate. *)
Abbreviation loc := nat (only parsing).

Inductive cell (num : Type) :=
| CArray (elems : list loc)
| CObject (o : Item num).
Arguments CArray {num}.
Arguments CObject {num}.

(** The calls that leave the process. *)
Inductive ExtCall :=
| S3GetObject
| BedrockEmbed (inputText : string)
| BedrockGenerate (prompt : string).

(** Module-level state of the chatbot Lambda ([embeddingsCache],
    [cacheTimestamp]), the object store, and the log of external calls. *)
Record State (num : Type) := mkState {
  heap : list (cell num);
  embeddingsCache : option loc;
  cacheTimestamp : Z;
  calls : list ExtCall
}.
Arguments mkState {num}.
Arguments heap {num}.
Arguments embeddingsCache {num}.
Arguments cacheTimestamp {num}.
Arguments calls {num}.

(** State and exceptions. *)
Definition M (num A : Type) : Type := State num -> State num * Outcome A.

Definition ret {num A} (a : A) : M num A := fun st => (st, Ok a).

Definition throw {num A} (e : JsError) : M num A := fun st => (st, Throw e).

Definition bind {num A B} (m : M num A) (k : A -> M num B) : M num B :=
  fun st =>
    match m st with
    | (st', Ok a) => k a st'
    | (st', Throw e) => (st', Throw e)
    end.

Notation "'do' x <- m ; k" := (bind m (fun x => k))
  (at level 10, x name, m at level 100, k at level 200).
Notation "'exec' m ; k" := (bind m (fun _ => k))
  (at level 10, m at level 100, k at level 200).

Definition lift {num A} (o : Outcome A) : M num A := fun st => (st, o).

(** [try { m } catch (error) { h error }] *)
Definition try_catch {num A} (m : M num A) (h : JsError -> M num A)
  : M num A :=
  fun st =>
    match m st with
    | (st', Ok a) => (st', Ok a)
    | (st', Throw e) => h e st'
    end.

(** [l.map(f)] for a callback with effects: elements are visited in
    order. *)
Fixpoint for_each {num A B} (f : A -> M num B) (l : list A)
  : M num (list B) :=
  match l with
  | [] => ret []
  | x :: l' => do y <- f x; do ys <- for_each f l'; ret (y :: ys)
  end.

Section Store.
Context {num : Type}.

Definition set_heap (h : list (cell num)) (st : State num) : State num :=
  mkState h (embeddingsCache st) (cacheTimestamp st) (calls st).

Definition alloc (c : cell num) : M num loc :=
  fun st => (set_heap (heap st ++ [c]) st, Ok (length (heap st))).

Definition get_array (r : loc) : M num (list loc) :=
  fun st =>
    match heap st !! r with
    | Some (CArray elems) => (st, Ok elems)
    | _ => (st, Throw (TypeError "not an array"))
    end.

Definition get_object (r : loc) : M num (Item num) :=
  fun st =>
    match heap st !! r with
    | Some (CObject o) => (st, Ok o)
    | _ => (st, Throw (TypeError "not an object"))
    end.

Definition set_array (r : loc) (elems : list loc) : M num unit :=
  fun st => (set_heap (<[r := CArray elems]> (heap st)) st, Ok tt).

Definition call (c : ExtCall) : M num unit :=
  fun st =>
    (mkState (heap st) (embeddingsCache st) (cacheTimestamp st)
       (calls st ++ [c]), Ok tt).

(** The elements of the array at [r], read through the store. *)
Definition read_array (h : list (cell num)) (r : loc)
  : option (list (Item num)) :=
  match h !! r with
  | Some (CArray elems) =>
      mapM
        (fun l => match h !! l with Some (CObject o) => Some o | _ => None end)
        elems
  | _ => None
  end.

End Store.

(** ** The chatbot Lambda *)

(** Values of [JSON.parse]. *)
#[local] Unset Elimination Schemes.
Inductive Json (num : Type) :=
| JNull
| JBool (b : bool)
| JNumber (n : num)
| JString (s : string)
| JArray (l : list (Json num))
| JObject (fields : list (string * Json num)).
#[local] Set Elimination Schemes.
Arguments JNull {num}.
Arguments JBool {num}.
Arguments JNumber {num}.
Arguments JString {num}.
Arguments JArray {num}.
Arguments JObject {num}.

(** The API Gateway event, as far as [handler] reads it. *)
Record Event := mkEvent {
  httpMethod : string;
  body : option string
}.

Inductive ResponseBody :=
| EmptyBody
| ErrorBody (error : string) (message : option string)
| AnswerBody (answer : string).

Record Response := mkResponse {
  statusCode : Z;
  headers : list (string * string);
  response_body : ResponseBody
}.

(** What one invocation gets from outside the code: the [JSON.parse]
    built-in on the request body, the clock, and the replies of S3 and
    Bedrock.  [s3_GetObject] is the reply to the [GetObjectCommand] for the
    embeddings file after [streamToString] and [JSON.parse]: the record
    collection of the persisted layout, or the error thrown on the way. *)
Record Env (num : Type) := mkEnv {
  JSON_parse : string -> Outcome (Json num);
  Date_now : Z;
  s3_GetObject : Outcome (list (Item num));
  bedrock_embed : string -> Outcome (list num);
  bedrock_complete : string -> Outcome string
}.
Arguments mkEnv {num}.
Arguments JSON_parse {num}.
Arguments Date_now {num}.
Arguments s3_GetObject {num}.
Arguments bedrock_embed {num}.
Arguments bedrock_complete {num}.

(** 1 hour in milliseconds *)
Definition CACHE_DURATION : Z := 3600000.

Definition corsResponse (statusCode : Z) (body : ResponseBody) : Response :=
  mkResponse statusCode
    [("Content-Type", "application/json");
     ("Access-Control-Allow-Origin", "*");
     ("Access-Control-Allow-Headers",
      "Content-Type,X-Amz-Date,Authorization,X-Api-Key,X-Amz-Security-Token");
     ("Access-Control-Allow-Methods", "OPTIONS,POST")]
    body.

Section Chatbot.
Context {num : Type} `{JsNumber num}.

(** [{ ...item, similarity: s }] *)
Definition with_similarity (item : Item num) (s : num) : Item num :=
  mkItem (id item) (text item) (embedding item) (metadata item) (Some s).

(** [(a, b) => b.similarity - a.similarity] is positive.  A missing
    [similarity] makes the difference NaN, which is not positive. *)
Definition by_similarity (a b : Item num) : bool :=
  match similarity b, similarity a with
  | Some sb, Some sa => num_pos (num_sub sb sa)
  | _, _ => false
  end.

(** [similarities.sort(...)]: the array at [r] is overwritten with its
    sorted elements. *)
Definition array_sort (r : loc) : M num unit :=
  do elems <- get_array r;
  do objs <- for_each get_object elems;
  set_array r
    (map fst (js_sort (fun x y => by_similarity (snd x) (snd y))
                      (zip elems objs))).

(** [a.slice(0, end)]: a new array. *)
Definition array_slice0 (r : loc) (end_ : Z) : M num loc :=
  do elems <- get_array r;
  alloc (CArray (slice0 elems end_)).

Definition score (questionEmbedding : list num) (l : loc) : M num loc :=
  do item <- get_object l;
  do s <- lift (cosineSimilarity questionEmbedding (embedding item));
  alloc (CObject (with_similarity item s)).

(** The two [console.log] lines are left out; the second one maps
    [topChunks] to a list of strings for the log and writes nothing. *)
Definition findRelevantChunks (questionEmbedding : list num)
    (faqEmbeddings : loc) (topK : Z) : M num loc :=
  do elems <- get_array faqEmbeddings;
  do scored <- for_each (score questionEmbedding) elems;
  do similarities <- alloc (CArray scored);
  exec array_sort similarities;
  do topChunks <- array_slice0 similarities topK;
  ret topChunks.

Definition context_entry (index : nat) (chunk : Item num) : string :=
  "[Source " +:+ pretty (index + 1)%nat +:+ ": "
    +:+ category (metadata chunk) +:+ "]" +:+ newline
    +:+ text chunk +:+ newline.

Definition buildContext (chunks : loc) : M num string :=
  do elems <- get_array chunks;
  do objs <- for_each get_object elems;
  ret (join newline (imap context_entry objs)).

Definition set_cache (r : loc) (now : Z) : M num unit :=
  fun st => (mkState (heap st) (Some r) now (calls st), Ok tt).

(** [JSON.parse(bodyContents)] builds the array and its records. *)
Definition alloc_collection (items : list (Item num)) : M num loc :=
  do elems <- for_each (fun it => alloc (CObject it)) items;
  alloc (CArray elems).

Definition fetchFaqEmbeddings (env : Env num) (now : Z) : M num loc :=
  exec call S3GetObject;
  do items <- lift (s3_GetObject env);
  do r <- alloc_collection items;
  exec set_cache r now;
  ret r.

Definition loadFaqEmbeddings (env : Env num) : M num loc :=
  fun st =>
    let now := Date_now env in
    match embeddingsCache st with
    | Some cached =>
        if (now - cacheTimestamp st <? CACHE_DURATION)%Z
        then (st, Ok cached)
        else fetchFaqEmbeddings env now st
    | None => fetchFaqEmbeddings env now st
    end.

Definition generateEmbedding (env : Env num) (text : string)
  : M num (list num) :=
  exec call (BedrockEmbed (trim text));
  lift (bedrock_embed env (trim text)).

Definition promptTemplate (question context : string) : string :=
  "You are a helpful AI assistant for Vault22, a financial management app.
Answer the user's question based on the following FAQ knowledge base context.

IMPORTANT INSTRUCTIONS:
1. Only use information from the provided context
2. If the context doesn't contain relevant information, say so clearly
3. Be concise but helpful (2-4 sentences)
4. If appropriate, mention which section of the FAQ you're referencing
5. Never make up information not in the context

FAQ CONTEXT:
" +:+ context +:+ "

USER QUESTION: " +:+ question +:+ "

ANSWER:".

Definition generateAnswer (env : Env num) (question context : string)
  : M num string :=
  let prompt := promptTemplate question context in
  exec call (BedrockGenerate prompt);
  lift (bedrock_complete env prompt).

(** [event.body || '{}'] *)
Definition body_or_default (event : Event) : string :=
  match body event with
  | Some s => if String.eqb s "" then "{}" else s
  | None => "{}"
  end.

(** Property lookup on a parsed object: of duplicate keys [JSON.parse]
    keeps the last. *)
Fixpoint get_property (k : string) (fields : list (string * Json num))
  : option (Json num) :=
  match fields with
  | [] => None
  | (k', v) :: fields' =>
      match get_property k fields' with
      | Some v' => Some v'
      | None => if String.eqb k k' then Some v else None
      end
  end.

(** [const { question } = body]; [None] is [undefined]. *)
Definition destructure_question (body : Json num)
  : Outcome (option (Json num)) :=
  match body with
  | JNull =>
      Throw (TypeError
        "Cannot destructure property 'question' of 'body' as it is null.")
  | JObject fields => Ok (get_property "question" fields)
  | _ => Ok None
  end.

Definition truthy (v : option (Json num)) : bool :=
  match v with
  | None | Some JNull => false
  | Some (JBool b) => b
  | Some (JNumber n) => negb (num_is_zero n)
  | Some (JString s) => negb (String.eqb s "")
  | Some (JArray _) | Some (JObject _) => true
  end.

Definition missing_question : Response :=
  corsResponse 400 (ErrorBody "Missing required parameter: question" None).

Definition not_initialized : Response :=
  corsResponse 503
    (ErrorBody
       "FAQ knowledge base not initialized. Please run document processor first."
       None).

(** Steps 1 to 5 of [handler], for a question that passed the check. *)
Definition answer_question (env : Env num) (question : string)
  : M num Response :=
  do faqEmbeddings <- loadFaqEmbeddings env;
  do elems <- get_array faqEmbeddings;
  if Nat.eqb (length elems) 0 then ret not_initialized
  else
    do questionEmbedding <- generateEmbedding env question;
    do relevantChunks <-
      findRelevantChunks questionEmbedding faqEmbeddings 3;
    do context <- buildContext relevantChunks;
    do answer <- generateAnswer env question context;
    ret (corsResponse 200 (AnswerBody answer)).

(** The body of the [try] block. *)
Definition handler_try (env : Env num) (event : Event) : M num Response :=
  do body <- lift (JSON_parse env (body_or_default event));
  do question <- lift (destructure_question body);
  if negb (truthy question) then ret missing_question
  else
    match question with
    | Some (JString q) =>
        if Nat.eqb (String.length (trim q)) 0 then ret missing_question
        else answer_question env q
    | _ => throw (TypeError "question.trim is not a function")
    end.

Definition handler (env : Env num) (event : Event) : M num Response :=
  if String.eqb (httpMethod event) "OPTIONS" then
    ret (corsResponse 200 EmptyBody)
  else
    try_catch (handler_try env event)
      (fun error =>
         ret (corsResponse 500
                (ErrorBody "Internal server error"
                   (Some (err_message error))))).

End Chatbot.

(** ** Chunking (document processor and content manager)

    [chunkDocument] has the same text in both files; the processor's copy
    declares one more local, [previousChunk], which it never reads. *)

Definition is_terminator (c : ascii) : bool :=
  Ascii.eqb c "." || Ascii.eqb c "!" || Ascii.eqb c "?".

(** [content.split(/(?<=[.!?])\s+/)], scanning left to right.  [prev] is
    the code unit before the cursor, [cur] the piece collected so far
    (reversed), and [skipping] holds while the cursor is inside a separator:
    a maximal run of white space that follows a terminator.  A separator at
    the very end leaves an empty last piece, as [split] does. *)
Fixpoint split_go (s : list ascii) (prev : option ascii) (skipping : bool)
    (cur : list ascii) : list string :=
  match s with
  | [] => [string_of_list_ascii (rev cur)]
  | c :: s' =>
      if is_whitespace c then
        if skipping then split_go s' (Some c) true cur
        else
          match prev with
          | Some p =>
              if is_terminator p then
                string_of_list_ascii (rev cur) :: split_go s' (Some c) true []
              else split_go s' (Some c) false (c :: cur)
          | None => split_go s' (Some c) false (c :: cur)
          end
      else split_go s' (Some c) false (c :: cur)
  end.

Definition split_sentences (content : string) : list string :=
  split_go (list_ascii_of_string content) None false [].

(** One iteration of [for (const sentence of sentences)], on the pair
    ([chunks], [currentChunk]). *)
Definition chunk_step (chunkSize overlap : Z)
    (st : list string * string) (sentence : string) : list string * string :=
  let '(chunks, currentChunk) := st in
  let testChunk := currentChunk +:+ " " +:+ sentence in
  if (chunkSize <? Z.of_nat (String.length testChunk))%Z
     && Nat.ltb 0 (String.length currentChunk)
  then
    let overlapText := string_slice_from currentChunk (- overlap) in
    (chunks ++ [trim currentChunk], overlapText +:+ " " +:+ sentence)
  else (chunks, testChunk).

Definition chunkDocument (content : string) (chunkSize overlap : Z)
  : list string :=
  let sentences := split_sentences content in
  let '(chunks, currentChunk) :=
    fold_left (chunk_step chunkSize overlap) sentences ([], "") in
  let chunks :=
    if Nat.ltb 0 (String.length (trim currentChunk))
    then chunks ++ [trim currentChunk] else chunks in
  List.filter (fun chunk => Nat.ltb 50 (String.length chunk)) chunks.

(** The same loop as a machine that takes one sentence per step, to count
    its iterations. *)
Record Loop := mkLoop {
  pending : list string;
  chunks : list string;
  currentChunk : string
}.

Definition loop_step (chunkSize overlap : Z) (l : Loop) : option Loop :=
  match pending l with
  | [] => None
  | sentence :: rest =>
      let '(chunks', currentChunk') :=
        chunk_step chunkSize overlap (chunks l, currentChunk l) sentence in
      Some (mkLoop rest chunks' currentChunk')
  end.

(** [None]: the fuel ran out before the iterator was exhausted. *)
Fixpoint loop_run (chunkSize overlap : Z) (fuel : nat) (l : Loop)
  : option Loop :=
  match loop_step chunkSize overlap l with
  | None => Some l
  | Some l' =>
      match fuel with
      | O => None
      | S fuel' => loop_run chunkSize overlap fuel' l'
      end
  end.

(** The lines after the loop: the final chunk and the length filter. *)
Definition loop_result (l : Loop) : list string :=
  let chunks :=
    if Nat.ltb 0 (String.length (trim (currentChunk l)))
    then chunks l ++ [trim (currentChunk l)] else chunks l in
  List.filter (fun chunk => Nat.ltb 50 (String.length chunk)) chunks.


(** ** Ingestion *)






(** [`${filename}_chunk_${i}`] *)
Definition chunk_id (filename : string) (i : nat) : string :=
  filename +:+ "_chunk_" +:+ pretty i.



(** What an ingestion run gets from outside: the keys [ListObjectsV2]
    returns under the prefix, the body of each object, the embedding of a
    text, the reply to the final [PutObjectCommand] and the clock's ISO
    string. *)
Record IngestEnv (num : Type) := mkIngestEnv {
  list_keys : Outcome (list string);
  get_body : string -> Outcome string;
  embed : string -> Outcome (list num);
  put_embeddings : Outcome unit;
  toISOString : string
}.
Arguments list_keys {num}.
Arguments get_body {num}.
Arguments embed {num}.
Arguments put_embeddings {num}.
Arguments toISOString {num}.

Definition obind {A B} (o : Outcome A) (k : A -> Outcome B) : Outcome B :=
  match o with
  | Ok a => k a
  | Throw e => Throw e
  end.


Module Processor.
Section Processor.
Context {num : Type}.

(** [generateEmbedding]: Bedrock is asked for [text.trim()]. *)
Definition generateEmbedding (env : IngestEnv num) (text : string)
  : Outcome (list num) :=
  embed env (trim text).

(** The inner loop: a chunk whose embedding fails is logged and skipped. *)
Fixpoint embed_chunks (env : IngestEnv num) (filename category : string)
    (total : nat) (i : nat) (chunks : list string) : list (Item num) :=
  match chunks with
  | [] => []
  | chunk :: rest =>
      let tail := embed_chunks env filename category total (S i) rest in
      match generateEmbedding env chunk with
      | Ok embedding =>
          mkItem (chunk_id filename i) chunk embedding
            (mkMetadata filename category i total None) None
          :: tail
      | Throw _ => tail
      end
  end.



End Processor.
End Processor.

Module ContentManager.
Section ContentManager.
Context {num : Type}.

Definition generateEmbedding (env : IngestEnv num) (text : string)
  : Outcome (list num) :=
  embed env (trim text).

(** The inner loop: a failing embedding aborts the run. *)
Fixpoint embed_chunks (env : IngestEnv num) (filename category : string)
    (total : nat) (i : nat) (chunks : list string)
  : Outcome (list (Item num)) :=
  match chunks with
  | [] => Ok []
  | chunk :: rest =>
      obind (generateEmbedding env chunk) (fun embedding =>
        obind (embed_chunks env filename category total (S i) rest)
          (fun tail =>
             Ok (mkItem (chunk_id filename i) chunk embedding
                   (mkMetadata filename category i total
                      (Some (toISOString env))) None
                 :: tail)))
  end.




End ContentManager.
End ContentManager.

(** ** Reference notions for the statements *)


(** A comparator that is consistent on the values that satisfy [P]: [gt]
    is asymmetric, and "not greater" is transitive. *)
Definition consistent_on {A : Type} (P : A -> Prop) (gt : A -> A -> bool)
  : Prop :=
  (forall x y, P x -> P y -> gt x y = true -> gt y x = false)
  /\ (forall x y z, P x -> P y -> P z ->
        gt x y = false -> gt y z = false -> gt x z = false).

(** ** Notions for the store *)

Section FrameDefs.
Context {num : Type}.

(** The module-level variables and the call log are the same in both
    states. *)
Definition same_globals (st st' : State num) : Prop :=
  embeddingsCache st' = embeddingsCache st
  /\ cacheTimestamp st' = cacheTimestamp st
  /\ calls st' = calls st.

(** [keeps base m Q]: run from any store that extends [base], the computation
    [m] leaves the cells of [base] and the globals as they were, and a value
    it returns satisfies [Q]. *)
Definition keeps {A} (base : list (cell num)) (m : M num A) (Q : A -> Prop)
  : Prop :=
  forall st,
    base `prefix_of` heap st ->
    base `prefix_of` heap (fst (m st))
    /\ same_globals st (fst (m st))
    /\ match snd (m st) with Ok a => Q a | Throw _ => True end.

End FrameDefs.

Section RunDefs.
Context {num : Type} `{JsNumber num}.

(** The scored copies [findRelevantChunks] makes of [items], or the error
    of the first record whose vector does not fit the query. *)
Fixpoint score_all (questionEmbedding : list num) (items : list (Item num))
  : Outcome (list (Item num)) :=
  match items with
  | [] => Ok []
  | item :: rest =>
      obind (cosineSimilarity questionEmbedding (embedding item)) (fun s =>
        obind (score_all questionEmbedding rest) (fun scored =>
          Ok (with_similarity item s :: scored)))
  end.

(** Location [l] holds the record [item]. *)
Definition points_to (h : list (cell num)) (l : nat) (item : Item num)
  : Prop :=
  h !! l = Some (CObject item).

End RunDefs.



(** [scored_copy q item sc]: [sc] is [item] with its similarity to [q]. *)
Definition scored_copy {num} `{JsNumber num} (questionEmbedding : list num)
    (item sc : Item num) : Prop :=
  exists s,
    cosineSimilarity questionEmbedding (embedding item) = Ok s
    /\ sc = with_similarity item s.

(** ** Notions for requests *)

Section RequestNotions.
Context {num : Type} `{JsNumber num}.

(** The value [handler] binds to [question], if it gets that far. *)
Definition request_question (env : Env num) (event : Event)
  : Outcome (option (Json num)) :=
  obind (JSON_parse env (body_or_default event)) destructure_question.


End RequestNotions.

(** A request body parser that knows the default body only. *)
Definition parse_default {num} (s : string) : Outcome (Json num) :=
  if String.eqb s "{}" then Ok (JObject [])
  else Throw (mkError "SyntaxError" "Unexpected token").

(** An environment in which the request asks a question and S3 answers
    the read of the embeddings file with [reply]. *)
Definition asking_env (reply : Outcome (list (Item float))) : Env float :=
  mkEnv
    (fun _ => Ok (JObject [("question", JString "How do I reset my password?")]))
    1000
    reply
    (fun _ => Ok [1%float; 1%float])
    (fun _ => Ok "Go to Settings.").

Definition NoSuchKey : JsError :=
  mkError "NoSuchKey" "The specified key does not exist.".

Definition AccessDenied : JsError := mkError "AccessDenied" "Access Denied".

(** A cold process: nothing loaded yet. *)
Definition cold_state {num} : State num := mkState [] None 0 [].

(** ** Sample inputs *)

Definition sample_item {num} (name : string) (v : list num) : Item num :=
  mkItem name "text" v (mkMetadata "faq.md" "faq" 0 1 None) None.

(** A warm process: three records at locations 0 to 2, their array at
    location 3, cached at time 0. *)
Definition sample_state {num} (a b c : list num) : State num :=
  mkState
    [CObject (sample_item "a" a); CObject (sample_item "b" b);
     CObject (sample_item "c" c); CArray [0; 1; 2]]
    (Some 3) 0 [].




(** ** Notions for whole invocations *)

Section InvocationNotions.
Context {num : Type}.

(** [grows m]: whatever the state, [m] only appends to the store and
    leaves the two cache variables alone (it may log calls). *)
Definition grows {A} (m : M num A) : Prop :=
  forall st,
    heap st `prefix_of` heap (fst (m st))
    /\ embeddingsCache (fst (m st)) = embeddingsCache st
    /\ cacheTimestamp (fst (m st)) = cacheTimestamp st.

(** [yields P m]: a value [m] returns satisfies [P]. *)
Definition yields {A} (P : A -> Prop) (m : M num A) : Prop :=
  forall st, match snd (m st) with Ok a => P a | Throw _ => True end.

(** The cache variable, when set, refers to an array of records. *)
Definition cache_loaded (st : State num) : Prop :=
  forall r, embeddingsCache st = Some r ->
            exists items, read_array (heap st) r = Some items.

(** [keeps_loaded m]: [m] only appends to the store, and a state whose
    cache is loaded stays so. *)
Definition keeps_loaded {A} (m : M num A) : Prop :=
  forall st,
    heap st `prefix_of` heap (fst (m st))
    /\ (cache_loaded st -> cache_loaded (fst (m st))).

(** The state after one more external call is logged. *)
Definition logged (cs : list ExtCall) (st : State num) : State num :=
  mkState (heap st) (embeddingsCache st) (cacheTimestamp st) (calls st ++ cs).

End InvocationNotions.

(** The response of the [catch] block of [handler]. *)
Definition internal_error (error : JsError) : Response :=
  corsResponse 500
    (ErrorBody "Internal server error" (Some (err_message error))).

(** The statuses the chatbot handler can answer with. *)
Definition handler_status (code : Z) : Prop :=
  code = 200%Z \/ code = 400%Z \/ code = 500%Z \/ code = 503%Z.

(** The context [handler] builds for a query vector from the records of a
    snapshot: the entries of the three best scored records. *)
Definition context_of {num} `{JsNumber num} (scored : list (Item num))
  : string :=
  join newline (imap context_entry (take 3 (js_sort by_similarity scored))).

(** An environment whose request body asks [question], with the given
    clock and replies. *)
Definition chat_env (question : string) (now : Z)
    (s3 : Outcome (list (Item float)))
    (embedded : Outcome (list float)) (completed : Outcome string)
  : Env float :=
  mkEnv (fun _ => Ok (JObject [("question", JString question)]))
    now s3 (fun _ => embedded) (fun _ => completed).

Definition post : Event := mkEvent "POST" (Some "body").

Definition ServiceUnavailable : JsError :=
  mkError "ServiceUnavailableException" "Bedrock is unavailable".

Definition sample_question : string := "How do I reset my password?".

Definition sample_items : list (Item float) :=
  [sample_item "a" [1%float; 0%float]; sample_item "b" [0%float; 1%float];
   sample_item "c" [1%float; 1%float]].

(** [sample_items] loaded at time 0 as the array at location 3. *)
Definition warm_state : State float :=
  sample_state [1%float; 0%float] [0%float; 1%float] [1%float; 1%float].

(** * Theorems *)

(** ** Cosine similarity *)

Section CosineFacts.
Context {num : Type} `{JsNumber num}.

(** C6: vectors of unequal length make [cosineSimilarity] throw its
    dimension error; no numeric score is returned for them. *)
Theorem cosineSimilarity_dimension_mismatch (vecA vecB : list num) :
  length vecA <> length vecB ->
  cosineSimilarity vecA vecB
    = Throw (Error "Vectors must have the same length")
  /\ forall s, cosineSimilarity vecA vecB <> Ok s.
Proof.
  intros Hlen. unfold cosineSimilarity.
  destruct (Nat.eqb_spec (length vecA) (length vecB)) as [Heq | _].
  - contradiction.
  - split; [reflexivity | discriminate].
Qed.

Lemma cosineSimilarity_same_length (vecA vecB : list num) :
  length vecA = length vecB ->
  exists s, cosineSimilarity vecA vecB = Ok s.
Proof.
  intros Hlen. unfold cosineSimilarity.
  rewrite Hlen, Nat.eqb_refl. simpl.
  destruct (cosine_loop _ _ _) as [[d nA] nB].
  destruct (num_is_zero _); eauto.
Qed.

End CosineFacts.

Lemma cosineSimilarity_dimension_mismatch_witness :
  length [1%float] <> length [1%float; 2%float]
  /\ (cosineSimilarity [1%float] [1%float; 2%float]
        = Throw (Error "Vectors must have the same length")
      /\ forall s, cosineSimilarity [1%float] [1%float; 2%float] <> Ok s).
Proof.
  split; [simpl; lia |].
  apply (cosineSimilarity_dimension_mismatch [1%float] [1%float; 2%float]).
  simpl; lia.
Defined.

Section CosineReal.
Local Open Scope R_scope.













End CosineReal.


(** Squares of small components underflow to 0: a non-zero vector then has
    similarity 0 with itself. *)
Lemma cosineSimilarity_float_underflow :
  cosineSimilarity [0x1p-600%float] [0x1p-600%float] = Ok 0%float
  /\ PrimFloat.eqb 0x1p-600%float 0%float = false.
Proof. split; vm_compute; reflexivity. Qed.

(** ** Sorting *)

Section SortFacts.
Context {A : Type} (gt : A -> A -> bool).

Lemma sort_insert_perm (x : A) (l : list A) : sort_insert gt x l ≡ₚ x :: l.
Proof.
  induction l as [| y l IH]; simpl; [reflexivity |].
  destruct (gt x y); [| reflexivity].
  rewrite IH. apply Permutation_swap.
Qed.

Lemma js_sort_perm (l : list A) : js_sort gt l ≡ₚ l.
Proof.
  induction l as [| x l IH]; simpl; [reflexivity |].
  rewrite sort_insert_perm, IH. reflexivity.
Qed.

Lemma js_sort_length (l : list A) : length (js_sort gt l) = length l.
Proof. apply Permutation_length, js_sort_perm. Qed.

Lemma sort_insert_sorted (P : A -> Prop) (x : A) (l : list A) :
  consistent_on P gt -> P x -> Forall P l ->
  StronglySorted (fun a b => gt a b = false) l ->
  StronglySorted (fun a b => gt a b = false) (sort_insert gt x l).
Proof.
  intros [Hasym Htrans] Hx HP.
  induction 1 as [| y l Hl IH Hy]; simpl.
  - repeat constructor.
  - apply Forall_cons in HP as [HPy HPl].
    destruct (gt x y) eqn:Hxy.
    + constructor; [auto |].
      rewrite sort_insert_perm. constructor; [auto | exact Hy].
    + constructor; [constructor; assumption |].
      constructor; [exact Hxy |].
      rewrite Forall_forall in Hy, HPl |- *. intros z Hz. eauto.
Qed.

Lemma js_sort_sorted (P : A -> Prop) (l : list A) :
  consistent_on P gt -> Forall P l ->
  StronglySorted (fun a b => gt a b = false) (js_sort gt l).
Proof.
  intros Hc. induction 1 as [| x l Hx Hl IH]; simpl.
  - constructor.
  - apply (sort_insert_sorted P); try assumption.
    rewrite js_sort_perm. exact Hl.
Qed.



End SortFacts.

(** Sorting pairs by their second component sorts the second
    components. *)
Lemma js_sort_snd {A B} (gt : B -> B -> bool) (l : list (A * B)) :
  map snd (js_sort (fun x y => gt (snd x) (snd y)) l) = js_sort gt (map snd l).
Proof.
  induction l as [| p l IH]; [reflexivity |].
  simpl. rewrite <- IH. clear IH.
  induction (js_sort _ l) as [| q s IHs]; [reflexivity |].
  simpl. destruct (gt (snd p) (snd q)); simpl; [rewrite IHs |]; reflexivity.
Qed.

(** ** Retrieval leaves the store as it was *)

Section Frame.
Context {num : Type} `{JsNumber num}.
Implicit Types (base : list (cell num)) (st : State num).

Lemma same_globals_refl st : same_globals st st.
Proof. repeat split. Qed.

Lemma same_globals_trans st1 st2 st3 :
  same_globals st1 st2 -> same_globals st2 st3 -> same_globals st1 st3.
Proof. unfold same_globals. intuition congruence. Qed.

Lemma keeps_ret {A} base (a : A) (Q : A -> Prop) : Q a -> keeps base (ret a) Q.
Proof. intros HQ st Hst. simpl. auto using same_globals_refl. Qed.

Lemma keeps_throw {A} base e (Q : A -> Prop) : keeps base (throw e) Q.
Proof. intros st Hst. simpl. auto using same_globals_refl. Qed.

Lemma keeps_lift {A} base (o : Outcome A) : keeps base (lift o) (fun _ => True).
Proof.
  intros st Hst. simpl. split; [assumption |].
  split; [apply same_globals_refl | destruct o; exact I].
Qed.

Lemma keeps_bind {A B} base (m : M num A) (k : A -> M num B)
    (Q : A -> Prop) (Q' : B -> Prop) :
  keeps base m Q -> (forall a, Q a -> keeps base (k a) Q') ->
  keeps base (bind m k) Q'.
Proof.
  intros Hm Hk st Hst. unfold bind.
  destruct (Hm st Hst) as (Hpre & Hglob & HQ).
  destruct (m st) as [st1 [a | e]]; simpl in *.
  - destruct (Hk a HQ st1 Hpre) as (Hpre' & Hglob' & HQ').
    eauto using same_globals_trans.
  - auto.
Qed.

Lemma keeps_weaken {A} base (m : M num A) (Q Q' : A -> Prop) :
  keeps base m Q -> (forall a, Q a -> Q' a) -> keeps base m Q'.
Proof.
  intros Hm HQ st Hst. destruct (Hm st Hst) as (Hpre & Hglob & Hres).
  split; [exact Hpre |]. split; [exact Hglob |].
  destruct (snd (m st)); auto.
Qed.

Lemma keeps_alloc base (c : cell num) :
  keeps base (alloc c) (fun r => length base <= r).
Proof.
  intros st Hst. simpl. split; [apply prefix_app_r; assumption |].
  split; [repeat split | apply prefix_length; assumption].
Qed.

Lemma keeps_get_array base r : keeps base (get_array r) (fun _ => True).
Proof.
  intros st Hst. unfold get_array.
  destruct (heap st !! r) as [[] |]; simpl; auto using same_globals_refl.
Qed.

Lemma keeps_get_object base r : keeps base (get_object r) (fun _ => True).
Proof.
  intros st Hst. unfold get_object.
  destruct (heap st !! r) as [[] |]; simpl; auto using same_globals_refl.
Qed.

Lemma prefix_insert_ge base (h : list (cell num)) r c :
  base `prefix_of` h -> length base <= r -> base `prefix_of` <[r := c]> h.
Proof.
  intros [k ->] Hr. rewrite insert_app_r_alt by assumption.
  eexists; reflexivity.
Qed.

(** A write outside [base] keeps [base]. *)
Lemma keeps_set_array base r elems :
  length base <= r -> keeps base (set_array r elems) (fun _ => True).
Proof.
  intros Hr st Hst. simpl.
  split; [apply prefix_insert_ge; assumption |].
  split; [repeat split | exact I].
Qed.

Lemma keeps_for_each {A B} base (f : A -> M num B) (l : list A) :
  (forall x, keeps base (f x) (fun _ => True)) ->
  keeps base (for_each f l) (fun _ => True).
Proof.
  intros Hf. induction l as [| x l IH]; simpl.
  - apply keeps_ret; exact I.
  - eapply keeps_bind; [apply Hf |]. intros y _.
    eapply keeps_bind; [apply IH |]. intros ys _.
    apply keeps_ret; exact I.
Qed.

Lemma keeps_score base q l : keeps base (score q l) (fun _ => True).
Proof.
  unfold score.
  eapply keeps_bind; [apply keeps_get_object |]. intros item _.
  eapply keeps_bind; [apply keeps_lift |]. intros s _.
  eapply keeps_weaken; [apply keeps_alloc | auto].
Qed.

Lemma keeps_array_sort base r :
  length base <= r -> keeps base (array_sort r) (fun _ => True).
Proof.
  intros Hr. unfold array_sort.
  eapply keeps_bind; [apply keeps_get_array |]. intros elems _.
  eapply keeps_bind; [apply keeps_for_each, keeps_get_object |]. intros objs _.
  apply keeps_set_array; assumption.
Qed.

Lemma keeps_array_slice0 base r k :
  keeps base (array_slice0 r k) (fun _ => True).
Proof.
  unfold array_slice0.
  eapply keeps_bind; [apply keeps_get_array |]. intros elems _.
  eapply keeps_weaken; [apply keeps_alloc | auto].
Qed.

Lemma keeps_findRelevantChunks base q faq k :
  keeps base (findRelevantChunks q faq k) (fun _ => True).
Proof.
  unfold findRelevantChunks.
  eapply keeps_bind; [apply keeps_get_array |]. intros elems _.
  eapply keeps_bind; [apply keeps_for_each, keeps_score |]. intros scored _.
  eapply keeps_bind; [apply keeps_alloc |]. intros similarities Hfresh.
  eapply keeps_bind; [apply keeps_array_sort; exact Hfresh |]. intros _ _.
  eapply keeps_bind; [apply keeps_array_slice0 |]. intros topChunks _.
  apply keeps_ret; exact I.
Qed.

Lemma read_array_prefix (h h' : list (cell num)) r items :
  h `prefix_of` h' -> read_array h r = Some items ->
  read_array h' r = Some items.
Proof.
  intros Hpre. unfold read_array.
  destruct (h !! r) as [[elems | o] |] eqn:Hr; try discriminate.
  rewrite (prefix_lookup_Some _ _ _ _ Hr Hpre).
  rewrite !mapM_Some. intros HF. eapply Forall2_impl; [exact HF |].
  intros l it Hl. simpl in *. destruct (h !! l) as [c |] eqn:Hc; [| discriminate].
  rewrite (prefix_lookup_Some _ _ _ _ Hc Hpre). exact Hl.
Qed.

(** C10: [findRelevantChunks] is read-only on what was in the store: every
    cell that existed keeps its content (the arrays, their order, and the
    fields of every record), the cache variables are as before, and any
    array reads as it did. *)
Theorem findRelevantChunks_read_only
    (questionEmbedding : list num) (faqEmbeddings : loc) (topK : Z)
    (st : State num) :
  let st' := fst (findRelevantChunks questionEmbedding faqEmbeddings topK st) in
  heap st `prefix_of` heap st'
  /\ embeddingsCache st' = embeddingsCache st
  /\ cacheTimestamp st' = cacheTimestamp st
  /\ calls st' = calls st
  /\ forall r items,
       read_array (heap st) r = Some items ->
       read_array (heap st') r = Some items.
Proof.
  intros st'.
  destruct (keeps_findRelevantChunks (heap st) questionEmbedding
              faqEmbeddings topK st) as (Hpre & (Hc & Ht & Hl) & _);
    [reflexivity |].
  fold st' in Hpre, Hc, Ht, Hl.
  repeat split; try assumption.
  intros r items. apply read_array_prefix. exact Hpre.
Qed.

End Frame.

(** ** What retrieval returns *)

Section Run.
Context {num : Type} `{JsNumber num}.
Implicit Types (st : State num) (h : list (cell num)).

Lemma read_array_spec h r items :
  read_array h r = Some items <->
  exists elems, h !! r = Some (CArray elems) /\ Forall2 (points_to h) elems items.
Proof.
  unfold read_array, points_to. split.
  - destruct (h !! r) as [[elems | o] |]; try discriminate.
    rewrite mapM_Some. intros HF. exists elems. split; [reflexivity |].
    eapply Forall2_impl; [exact HF |]. intros l it. simpl.
    destruct (h !! l) as [[] |]; congruence.
  - intros (elems & -> & HF). rewrite mapM_Some.
    eapply Forall2_impl; [exact HF |]. intros l it ->. reflexivity.
Qed.

Lemma points_to_prefix h h' l item :
  h `prefix_of` h' -> points_to h l item -> points_to h' l item.
Proof. intros Hpre Hl. exact (prefix_lookup_Some _ _ _ _ Hl Hpre). Qed.

Lemma for_each_get_object st elems objs :
  Forall2 (points_to (heap st)) elems objs ->
  for_each get_object elems st = (st, Ok objs).
Proof.
  induction 1 as [| l it elems objs Hl _ IH]; [reflexivity |].
  simpl. unfold bind at 1. unfold get_object at 1. rewrite Hl.
  unfold bind at 1. rewrite IH. reflexivity.
Qed.

Lemma set_heap_heap h st : heap (set_heap h st) = h.
Proof. reflexivity. Qed.

Lemma set_heap_set_heap h h' st : set_heap h (set_heap h' st) = set_heap h st.
Proof. reflexivity. Qed.

Lemma set_heap_same st : set_heap (heap st) st = st.
Proof. destruct st; reflexivity. Qed.

Lemma for_each_score_ok q elems items st scored :
  Forall2 (points_to (heap st)) elems items ->
  score_all q items = Ok scored ->
  for_each (score q) elems st
    = (set_heap (heap st ++ map CObject scored) st,
       Ok (seq (length (heap st)) (length scored))).
Proof.
  intros HF. revert elems st scored HF.
  induction items as [| it items IH]; intros elems st scored HF Hs;
    inversion HF as [| l ? elems' ? Hl HF']; subst.
  - simpl in Hs. injection Hs as <-. simpl.
    rewrite app_nil_r, set_heap_same. reflexivity.
  - simpl in Hs.
    destruct (cosineSimilarity q (embedding it)) as [s | e] eqn:Hc;
      [| discriminate].
    simpl in Hs. destruct (score_all q items) as [tl | e] eqn:Htl;
      [| discriminate].
    simpl in Hs. injection Hs as <-.
    simpl for_each. unfold bind at 1. unfold score at 1.
    unfold bind at 1. unfold get_object at 1. rewrite Hl.
    unfold bind at 1. unfold lift at 1. rewrite Hc.
    unfold alloc at 1. unfold bind at 1.
    rewrite (IH elems'
               (set_heap (heap st ++ [CObject (with_similarity it s)]) st) tl).
    + simpl. rewrite length_app, <- app_assoc. simpl.
      rewrite Nat.add_1_r. reflexivity.
    + eapply Forall2_impl; [exact HF' |]. intros l' it'.
      apply points_to_prefix. simpl. apply prefix_app_r. reflexivity.
    + reflexivity.
Qed.

Lemma for_each_score_throw q elems items st e :
  Forall2 (points_to (heap st)) elems items ->
  score_all q items = Throw e ->
  exists st', for_each (score q) elems st = (st', Throw e).
Proof.
  intros HF. revert elems st HF.
  induction items as [| it items IH]; intros elems st HF Hs;
    inversion HF as [| l ? elems' ? Hl HF']; subst; [discriminate |].
  simpl in Hs. simpl for_each. unfold bind at 1. unfold score at 1.
  unfold bind at 1. unfold get_object at 1. rewrite Hl.
  unfold bind at 1. unfold lift at 1.
  destruct (cosineSimilarity q (embedding it)) as [s | e'] eqn:Hc.
  - simpl in Hs. destruct (score_all q items) as [tl | e'] eqn:Htl;
      [discriminate |].
    simpl in Hs. injection Hs as ->.
    unfold alloc at 1. unfold bind at 1.
    destruct (IH elems'
                (set_heap (heap st ++ [CObject (with_similarity it s)]) st))
      as [st' Hst']; [| reflexivity |].
    + eapply Forall2_impl; [exact HF' |]. intros l' it'.
      apply points_to_prefix. simpl. apply prefix_app_r. reflexivity.
    + rewrite Hst'. eauto.
  - simpl in Hs. injection Hs as ->. eauto.
Qed.

(** The fresh objects sit right behind the old store. *)
Lemma points_to_fresh h (scored : list (Item num)) :
  Forall2 (points_to (h ++ map CObject scored))
    (seq (length h) (length scored)) scored.
Proof.
  apply Forall2_same_length_lookup. split; [apply length_seq |].
  intros i l it Hl Hit. apply lookup_seq in Hl as [-> Hi].
  unfold points_to. rewrite lookup_app_r by lia.
  replace (length h + i - length h) with i by lia.
  rewrite list_lookup_fmap, Hit. reflexivity.
Qed.

Lemma slice0_fmap {A B} (f : A -> B) (l : list A) k :
  slice0 (f <$> l) k = f <$> slice0 l k.
Proof. unfold slice0. rewrite length_fmap, fmap_take. reflexivity. Qed.

(** What a run of [findRelevantChunks] returns, when the snapshot at
    [faqEmbeddings] reads as [items]. *)
Lemma findRelevantChunks_run q faq k st items :
  read_array (heap st) faq = Some items ->
  match score_all q items with
  | Ok scored =>
      exists st' r,
        findRelevantChunks q faq k st = (st', Ok r)
        /\ read_array (heap st') r
           = Some (slice0 (js_sort by_similarity scored) k)
  | Throw e => exists st', findRelevantChunks q faq k st = (st', Throw e)
  end.
Proof.
  intros Hread. apply read_array_spec in Hread as (elems & Hfaq & HF).
  unfold findRelevantChunks.
  destruct (score_all q items) as [scored | e] eqn:Hs.
  - unfold bind at 1. unfold get_array at 1. rewrite Hfaq.
    unfold bind at 1. rewrite (for_each_score_ok q elems items st scored HF Hs).
    set (h1 := heap st ++ map CObject scored).
    set (locs := seq (length (heap st)) (length scored)).
    unfold bind at 1. unfold alloc at 1. rewrite set_heap_heap, set_heap_set_heap.
    set (h2 := h1 ++ [CArray locs]).
    assert (Hlocs : Forall2 (points_to h2) locs scored).
    { eapply Forall2_impl; [apply points_to_fresh |]. intros l it.
      apply points_to_prefix, prefix_app_r. reflexivity. }
    unfold bind at 1. unfold array_sort at 1.
    unfold bind at 1. unfold get_array at 1. rewrite set_heap_heap.
    assert (Hr : h2 !! length h1 = Some (CArray locs)).
    { unfold h2. rewrite lookup_app_r, Nat.sub_diag by lia. reflexivity. }
    rewrite Hr.
    unfold bind at 1. rewrite (for_each_get_object _ locs scored)
      by (rewrite set_heap_heap; exact Hlocs).
    unfold set_array at 1. rewrite set_heap_heap, set_heap_set_heap.
    set (sp := js_sort (fun x y => by_similarity (snd x) (snd y))
                 (zip locs scored)).
    set (h3 := <[length h1 := CArray (map fst sp)]> h2).
    unfold bind at 1. unfold array_slice0 at 1.
    unfold bind at 1. unfold get_array at 1. rewrite set_heap_heap.
    assert (Hr3 : h3 !! length h1 = Some (CArray (map fst sp))).
    { unfold h3. apply list_lookup_insert_eq. unfold h2.
      rewrite length_app. simpl. lia. }
    rewrite Hr3. unfold alloc at 1. rewrite set_heap_heap, set_heap_set_heap.
    unfold ret. eexists _, _. split; [reflexivity |].
    rewrite set_heap_heap. apply read_array_spec.
    exists (slice0 (map fst sp) k). split.
    { rewrite lookup_app_r, Nat.sub_diag by lia. reflexivity. }
    assert (Hh3 : h3 = h1 ++ [CArray (map fst sp)]).
    { unfold h3, h2. rewrite insert_app_r_alt, Nat.sub_diag by lia.
      reflexivity. }
    assert (Hsp : Forall (fun p => points_to h1 (fst p) (snd p)) sp).
    { unfold sp. rewrite js_sort_perm.
      apply Forall_forall. intros [l it] Hin.
      apply list_elem_of_lookup in Hin as [i Hi].
      apply lookup_zip_with_Some in Hi as (l' & it' & Heq & Hl & Hit).
      injection Heq as -> ->.
      exact (Forall2_lookup_lr _ _ _ _ _ _ (points_to_fresh (heap st) scored) Hl Hit). }
    assert (Hzip : map snd (zip locs scored) = scored).
    { apply snd_zip. unfold locs. rewrite length_seq. lia. }
    replace (js_sort by_similarity scored) with (map snd sp)
      by (unfold sp; rewrite js_sort_snd, Hzip; reflexivity).
    change (map fst sp) with (fst <$> sp). change (map snd sp) with (snd <$> sp).
    rewrite !slice0_fmap. apply Forall2_fmap.
    apply Forall_Forall2_diag. unfold slice0. apply Forall_take.
    eapply Forall_impl; [exact Hsp |]. intros [l it]. simpl.
    apply points_to_prefix. rewrite Hh3, <- app_assoc.
    apply prefix_app_r. reflexivity.
  - unfold bind at 1. unfold get_array at 1. rewrite Hfaq.
    unfold bind at 1.
    destruct (for_each_score_throw q elems items st e HF Hs) as [st' ->].
    eauto.
Qed.

End Run.

Section TopK.
Context {num : Type} `{JsNumber num}.

Lemma score_all_scored (q : list num) (items : list (Item num)) :
  Forall (fun item => length (embedding item) = length q) items ->
  exists scored,
    score_all q items = Ok scored /\ Forall2 (scored_copy q) items scored.
Proof.
  induction 1 as [| item items Hlen _ (scored & Hs & HF)]; simpl.
  - exists []. split; [reflexivity | constructor].
  - destruct (cosineSimilarity_same_length q (embedding item)) as [s Hc];
      [congruence |].
    rewrite Hc, Hs. simpl. eexists. split; [reflexivity |].
    constructor; [exists s; auto | exact HF].
Qed.

Lemma slice0_zero {A} (l : list A) : slice0 l 0 = [].
Proof.
  unfold slice0, relative_index. simpl.
  rewrite Z.min_l by lia. reflexivity.
Qed.

Lemma slice0_nonneg {A} (l : list A) (k : Z) :
  (0 <= k)%Z -> slice0 l k = take (Z.to_nat k) l.
Proof.
  intros Hk. unfold slice0, relative_index.
  destruct (Z.ltb_spec k 0) as [| _]; [lia |].
  destruct (Z.le_gt_cases k (Z.of_nat (length l))).
  - rewrite Z.min_l by lia. reflexivity.
  - rewrite Z.min_r, Nat2Z.id by lia.
    rewrite !take_ge by lia. reflexivity.
Qed.

Lemma slice0_all {A} (l : list A) (k : Z) :
  (Z.of_nat (length l) < k)%Z -> slice0 l k = l.
Proof.
  intros Hk. rewrite slice0_nonneg by lia. apply take_ge. lia.
Qed.

(** C5, the part that holds: with [topK = 0] the result is empty, and with
    [topK] above the record count it holds every record, scored. *)
Theorem findRelevantChunks_k_bounds
    (questionEmbedding : list num) (faqEmbeddings : nat) (topK : Z)
    (st : State num) (items : list (Item num)) :
  read_array (heap st) faqEmbeddings = Some items ->
  Forall (fun item => length (embedding item) = length questionEmbedding)
    items ->
  exists st' r result,
    findRelevantChunks questionEmbedding faqEmbeddings topK st = (st', Ok r)
    /\ read_array (heap st') r = Some result
    /\ (topK = 0%Z -> result = [])
    /\ ((Z.of_nat (length items) < topK)%Z ->
        length result = length items
        /\ exists scored,
             Forall2 (scored_copy questionEmbedding) items scored
             /\ result ≡ₚ scored).
Proof.
  intros Hread Hlen.
  destruct (score_all_scored questionEmbedding items Hlen)
    as (scored & Hs & HF).
  pose proof (findRelevantChunks_run questionEmbedding faqEmbeddings topK
                st items Hread) as Hrun.
  rewrite Hs in Hrun. destruct Hrun as (st' & r & Hrun & Hres).
  exists st', r, (slice0 (js_sort by_similarity scored) topK).
  split; [exact Hrun |]. split; [exact Hres |]. split.
  - intros ->. apply slice0_zero.
  - intros Hk.
    assert (Hsame : length scored = length items)
      by (symmetry; exact (Forall2_length _ _ _ HF)).
    rewrite slice0_all by (rewrite js_sort_length; lia).
    split; [rewrite js_sort_length; exact Hsame |].
    exists scored. split; [exact HF | apply js_sort_perm].
Qed.

(** For any arithmetic: the result is the front of the sorted scored
    records, and the sorted records are in order whenever the comparator
    is consistent on the scores (for binary64: no score is NaN). *)
Lemma findRelevantChunks_sorted_when_consistent
    (questionEmbedding : list num) (faqEmbeddings : nat) (topK : Z)
    (st : State num) (items : list (Item num)) :
  (0 <= topK)%Z ->
  read_array (heap st) faqEmbeddings = Some items ->
  Forall (fun item => length (embedding item) = length questionEmbedding)
    items ->
  exists st' r scored,
    findRelevantChunks questionEmbedding faqEmbeddings topK st = (st', Ok r)
    /\ Forall2 (scored_copy questionEmbedding) items scored
    /\ read_array (heap st') r
       = Some (take (Z.to_nat topK) (js_sort by_similarity scored))
    /\ (consistent_on (fun item => item ∈ scored) by_similarity ->
        StronglySorted (fun a b => by_similarity a b = false)
          (js_sort by_similarity scored)).
Proof.
  intros Hk Hread Hlen.
  destruct (score_all_scored questionEmbedding items Hlen)
    as (scored & Hs & HF).
  pose proof (findRelevantChunks_run questionEmbedding faqEmbeddings topK
                st items Hread) as Hrun.
  rewrite Hs in Hrun. destruct Hrun as (st' & r & Hrun & Hres).
  rewrite slice0_nonneg in Hres by assumption.
  exists st', r, scored. split; [exact Hrun |]. split; [exact HF |].
  split; [exact Hres |]. intros Hc.
  eapply js_sort_sorted; [exact Hc |]. apply Forall_forall. auto.
Qed.

End TopK.

(** On binary64 numbers: the query [[1, 1]] scores record "c" highest and
    ties "a" with "b"; the top two are "c", then "a", which precedes "b" in
    the store. *)
Example findRelevantChunks_float_top_two :
  exists st' r result,
    findRelevantChunks [1; 1]%float 3 2
      (sample_state [1; 0]%float [0; 1]%float [1; 1]%float) = (st', Ok r)
    /\ read_array (heap st') r = Some result
    /\ map id result = ["c"; "a"].
Proof.
  eexists _, _, _. split; [vm_compute; reflexivity |].
  split; [vm_compute; reflexivity | reflexivity].
Qed.

Lemma findRelevantChunks_k_bounds_witness :
  let st := sample_state [1; 0]%float [0; 1]%float [1; 1]%float in
  let items :=
    [sample_item "a" [1; 0]%float; sample_item "b" [0; 1]%float;
     sample_item "c" [1; 1]%float] in
  read_array (heap st) 3 = Some items
  /\ Forall (fun item => length (embedding item) = length [1; 1]%float) items
  /\ exists st' r result,
       findRelevantChunks [1; 1]%float 3 5 st = (st', Ok r)
       /\ read_array (heap st') r = Some result
       /\ (5%Z = 0%Z -> result = [])
       /\ ((Z.of_nat (length items) < 5)%Z ->
           length result = length items
           /\ exists scored,
                Forall2 (scored_copy [1; 1]%float) items scored
                /\ result ≡ₚ scored).
Proof.
  split; [reflexivity |]. split; [repeat constructor |].
  apply (findRelevantChunks_k_bounds [1; 1]%float 3 5
           (sample_state [1; 0]%float [0; 1]%float [1; 1]%float));
    [reflexivity | repeat constructor].
Defined.

(** C5, the part that fails: a negative [topK] reaches [slice] as it is and
    counts from the end, so [topK = -1] on three records returns two. *)
Lemma findRelevantChunks_negative_k :
  exists st' r result,
    findRelevantChunks [1; 1]%float 3 (-1)
      (sample_state [1; 0]%float [0; 1]%float [1; 1]%float) = (st', Ok r)
    /\ read_array (heap st') r = Some result
    /\ length result = 2
    /\ (-1 <= 0)%Z.
Proof.
  eexists _, _, _. split; [vm_compute; reflexivity |].
  split; [vm_compute; reflexivity |]. split; [reflexivity | lia].
Qed.

Section TopKReal.
Local Open Scope R_scope.








End TopKReal.

(** ** Loading and the cache *)

Section Loading.
Context {num : Type} `{JsNumber num}.
Implicit Types (st : State num).

Lemma for_each_alloc (items : list (Item num)) st :
  for_each (fun it => alloc (CObject it)) items st
    = (set_heap (heap st ++ map CObject items) st,
       Ok (seq (length (heap st)) (length items))).
Proof.
  revert st. induction items as [| it items IH]; intros st.
  - simpl. rewrite app_nil_r, set_heap_same. reflexivity.
  - simpl for_each. unfold bind at 1. unfold alloc at 1.
    unfold bind at 1. rewrite IH. simpl.
    rewrite length_app, <- app_assoc. simpl.
    rewrite Nat.add_1_r. reflexivity.
Qed.

Lemma alloc_collection_run (items : list (Item num)) st :
  alloc_collection items st
    = (set_heap (heap st ++ map CObject items
                   ++ [CArray (seq (length (heap st)) (length items))]) st,
       Ok (length (heap st) + length items)).
Proof.
  unfold alloc_collection, bind. rewrite for_each_alloc.
  unfold alloc. simpl. rewrite length_app, length_map, <- app_assoc.
  reflexivity.
Qed.

Lemma read_array_collection (h : list (cell num)) (items : list (Item num)) :
  read_array (h ++ map CObject items ++ [CArray (seq (length h) (length items))])
    (length h + length items) = Some items.
Proof.
  apply read_array_spec. exists (seq (length h) (length items)). split.
  - rewrite app_assoc, lookup_app_r by (rewrite length_app, length_map; lia).
    rewrite length_app, length_map, Nat.sub_diag. reflexivity.
  - eapply Forall2_impl; [apply points_to_fresh |]. intros l it.
    apply points_to_prefix. rewrite app_assoc. apply prefix_app_r. reflexivity.
Qed.

Lemma fetchFaqEmbeddings_eq (env : Env num) (now : Z) st :
  fetchFaqEmbeddings env now st
  = match s3_GetObject env with
    | Ok items =>
        (mkState
           (heap st ++ map CObject items
              ++ [CArray (seq (length (heap st)) (length items))])
           (Some (length (heap st) + length items)) now
           (calls st ++ [S3GetObject]),
         Ok (length (heap st) + length items))
    | Throw e =>
        (mkState (heap st) (embeddingsCache st) (cacheTimestamp st)
           (calls st ++ [S3GetObject]),
         Throw e)
    end.
Proof.
  unfold fetchFaqEmbeddings. unfold bind at 1. unfold call at 1.
  unfold bind at 1. unfold lift at 1.
  destruct (s3_GetObject env) as [items | e]; [| reflexivity].
  unfold bind at 1. rewrite alloc_collection_run. reflexivity.
Qed.

(** A fetch: one [GetObject], and on success a fresh array holding the
    records, cached with the current time. *)
Lemma fetchFaqEmbeddings_run (env : Env num) (now : Z) st :
  let st' := fst (fetchFaqEmbeddings env now st) in
  calls st' = calls st ++ [S3GetObject]
  /\ heap st `prefix_of` heap st'
  /\ match s3_GetObject env with
     | Ok items =>
         exists r,
           snd (fetchFaqEmbeddings env now st) = Ok r
           /\ length (heap st) <= r
           /\ read_array (heap st') r = Some items
           /\ embeddingsCache st' = Some r
           /\ cacheTimestamp st' = now
     | Throw e =>
         snd (fetchFaqEmbeddings env now st) = Throw e
         /\ heap st' = heap st
         /\ embeddingsCache st' = embeddingsCache st
         /\ cacheTimestamp st' = cacheTimestamp st
     end.
Proof.
  intros st'. subst st'. rewrite fetchFaqEmbeddings_eq.
  destruct (s3_GetObject env) as [items | e]; simpl.
  - split; [reflexivity |]. split; [apply prefix_app_r; reflexivity |].
    exists (length (heap st) + length items).
    split; [reflexivity |]. split; [lia |].
    split; [apply read_array_collection |]. split; reflexivity.
  - repeat split; reflexivity.
Qed.

(** C2: a snapshot cached less than [CACHE_DURATION] (one hour) ago is
    returned as it is, with no call and no change of state; with no
    snapshot, or once the duration has elapsed, the load makes exactly one
    [GetObject] call and, when S3 returns the collection, puts it in a
    fresh array, caches that array and sets the timestamp to now. *)
Theorem loadFaqEmbeddings_cache_ttl (env : Env num) st :
  CACHE_DURATION = 3600000%Z
  /\ (forall cached,
        embeddingsCache st = Some cached ->
        (Date_now env - cacheTimestamp st < CACHE_DURATION)%Z ->
        loadFaqEmbeddings env st = (st, Ok cached))
  /\ (embeddingsCache st = None
      \/ (CACHE_DURATION <= Date_now env - cacheTimestamp st)%Z ->
      let st' := fst (loadFaqEmbeddings env st) in
      calls st' = calls st ++ [S3GetObject]
      /\ heap st `prefix_of` heap st'
      /\ match s3_GetObject env with
         | Ok items =>
             exists r,
               snd (loadFaqEmbeddings env st) = Ok r
               /\ length (heap st) <= r
               /\ read_array (heap st') r = Some items
               /\ embeddingsCache st' = Some r
               /\ cacheTimestamp st' = Date_now env
         | Throw e =>
             snd (loadFaqEmbeddings env st) = Throw e
             /\ heap st' = heap st
             /\ embeddingsCache st' = embeddingsCache st
             /\ cacheTimestamp st' = cacheTimestamp st
         end).
Proof.
  split; [reflexivity |]. split.
  - intros cached Hc Hfresh. unfold loadFaqEmbeddings. rewrite Hc.
    destruct (Z.ltb_spec (Date_now env - cacheTimestamp st) CACHE_DURATION);
      [reflexivity | lia].
  - intros Hstale.
    assert (Hload : loadFaqEmbeddings env st
                    = fetchFaqEmbeddings env (Date_now env) st).
    { unfold loadFaqEmbeddings.
      destruct (embeddingsCache st) as [cached |]; [| reflexivity].
      destruct Hstale as [| Hstale]; [discriminate |].
      destruct (Z.ltb_spec (Date_now env - cacheTimestamp st) CACHE_DURATION);
        [lia | reflexivity]. }
    rewrite Hload. apply fetchFaqEmbeddings_run.
Qed.

End Loading.

(** One millisecond after a load at time 0 the cached array (location 3)
    is returned and the state is the same; at 3600000 ms the file is read
    again and the new array is cached. *)
Example loadFaqEmbeddings_one_ms_later :
  let st := sample_state [1; 0]%float [0; 1]%float [1; 1]%float in
  loadFaqEmbeddings (mkEnv parse_default 1 (Ok []) (fun _ => Ok [])
                       (fun _ => Ok "")) st
  = (st, Ok 3).
Proof. reflexivity. Qed.

Example loadFaqEmbeddings_after_ttl :
  let st := sample_state [1; 0]%float [0; 1]%float [1; 1]%float in
  let env :=
    mkEnv parse_default 3600000 (Ok [sample_item "d" [1%float; 1%float]])
      (fun _ => Ok []) (fun _ => Ok "") in
  snd (loadFaqEmbeddings env st) = Ok 5
  /\ embeddingsCache (fst (loadFaqEmbeddings env st)) = Some 5
  /\ cacheTimestamp (fst (loadFaqEmbeddings env st)) = 3600000%Z
  /\ calls (fst (loadFaqEmbeddings env st)) = [S3GetObject]
  /\ read_array (heap (fst (loadFaqEmbeddings env st))) 5
     = Some [sample_item "d" [1%float; 1%float]].
Proof. repeat split; vm_compute; reflexivity. Qed.

Section Requests.
Context {num : Type} `{JsNumber num}.


End Requests.


(** C1, on the code: with no embeddings object in S3 ([NoSuchKey]) the
    handler answers with the generic status 500 and "Internal server
    error", as it does for any other S3 failure ([AccessDenied]); the 503
    "not initialized" response is returned only when the object exists and
    holds an empty array. *)
Theorem handler_no_embeddings_object :
  let event := mkEvent "POST" (Some "body") in
  snd (handler (asking_env (Throw NoSuchKey)) event cold_state)
    = Ok (corsResponse 500
            (ErrorBody "Internal server error"
               (Some "The specified key does not exist.")))
  /\ snd (handler (asking_env (Throw AccessDenied)) event cold_state)
     = Ok (corsResponse 500
             (ErrorBody "Internal server error" (Some "Access Denied")))
  /\ snd (handler (asking_env (Ok [])) event cold_state)
     = Ok not_initialized
  /\ statusCode not_initialized = 503%Z
  /\ calls (fst (handler (asking_env (Throw NoSuchKey)) event cold_state))
     = [S3GetObject].
Proof.
  split; [vm_compute; reflexivity |]. split; [vm_compute; reflexivity |].
  split; [vm_compute; reflexivity |]. split; vm_compute; reflexivity.
Qed.

(** ** Chunking terminates *)

Lemma length_list_ascii_of_string (s : string) :
  length (list_ascii_of_string s) = String.length s.
Proof. induction s as [| c s IH]; simpl; [| rewrite IH]; reflexivity. Qed.

Lemma split_go_length (s : list ascii) prev skipping cur :
  length (split_go s prev skipping cur) <= S (length s).
Proof.
  revert prev skipping cur.
  induction s as [| c s IH]; intros prev skipping cur; simpl; [lia |].
  destruct (is_whitespace c).
  - destruct skipping.
    + specialize (IH (Some c) true cur). lia.
    + destruct prev as [p |].
      * destruct (is_terminator p); simpl.
        -- specialize (IH (Some c) true []). lia.
        -- specialize (IH (Some c) false (c :: cur)). lia.
      * specialize (IH (Some c) false (c :: cur)). lia.
  - specialize (IH (Some c) false (c :: cur)). lia.
Qed.

(** With one unit of fuel per pending sentence the loop runs to its end,
    in the state the fold computes. *)
Lemma loop_run_fold (chunkSize overlap : Z) (sentences emitted : list string)
    (buffer : string) :
  loop_run chunkSize overlap (length sentences)
    (mkLoop sentences emitted buffer)
  = Some (mkLoop []
            (fst (fold_left (chunk_step chunkSize overlap) sentences
                    (emitted, buffer)))
            (snd (fold_left (chunk_step chunkSize overlap) sentences
                    (emitted, buffer)))).
Proof.
  revert emitted buffer.
  induction sentences as [| sentence rest IH]; intros emitted buffer.
  - reflexivity.
  - cbn [length fold_left loop_run loop_step pending chunks currentChunk].
    destruct (chunk_step chunkSize overlap (emitted, buffer) sentence)
      as [emitted' buffer'].
    apply IH.
Qed.

(** C9: for every text, size and overlap, with no condition relating
    overlap to size, the loop of [chunkDocument] ends after one step per
    sentence, there are at most [length content + 1] sentences, and what
    the final state yields is the value of [chunkDocument]. *)
Theorem chunkDocument_terminates (content : string) (chunkSize overlap : Z) :
  let sentences := split_sentences content in
  length sentences <= S (String.length content)
  /\ exists final,
       loop_run chunkSize overlap (length sentences)
         (mkLoop sentences [] "") = Some final
       /\ pending final = []
       /\ loop_result final = chunkDocument content chunkSize overlap.
Proof.
  intros sentences. split.
  - unfold sentences, split_sentences.
    rewrite <- length_list_ascii_of_string. apply split_go_length.
  - eexists. split; [apply loop_run_fold |]. split; [reflexivity |].
    unfold loop_result, chunkDocument. fold sentences. simpl.
    destruct (fold_left _ sentences _) as [chunks currentChunk].
    reflexivity.
Qed.

(** The misconfigured case runs like any other. *)
Example chunkDocument_overlap_above_size :
  chunkDocument
    "Reset your password by going to Settings. Then open Security and choose Change Password now."
    60 200
  = ["Reset your password by going to Settings. Then open Security and choose Change Password now."].
Proof. vm_compute. reflexivity. Qed.

(** ** Record ids *)







Section Ids.
Context {num : Type}.










End Ids.



Section Binds.
Context {num : Type}.

Lemma bind_ok {A B} (m : M num A) (k : A -> M num B) st st' a :
  m st = (st', Ok a) -> bind m k st = k a st'.
Proof. intros Hm. unfold bind. rewrite Hm. reflexivity. Qed.

Lemma bind_throw {A B} (m : M num A) (k : A -> M num B) st st' e :
  m st = (st', Throw e) -> bind m k st = (st', Throw e).
Proof. intros Hm. unfold bind. rewrite Hm. reflexivity. Qed.

Lemma yields_bind {A B} (m : M num A) (k : A -> M num B) (Q : B -> Prop) :
  (forall a, yields Q (k a)) -> yields Q (bind m k).
Proof.
  intros Hk st. unfold bind. destruct (m st) as [st' [a | e]]; simpl.
  - apply Hk.
  - exact I.
Qed.

Lemma yields_ret {A} (a : A) (Q : A -> Prop) :
  Q a -> yields Q (ret (num := num) a).
Proof. intros HQ st. exact HQ. Qed.

Lemma yields_throw {A} e (Q : A -> Prop) : yields Q (throw (num := num) e).
Proof. intros st. exact I. Qed.

Lemma grows_ret {A} (a : A) : grows (ret (num := num) a).
Proof. intros st. simpl. auto. Qed.

Lemma grows_throw {A} e : grows (throw (num := num) (A := A) e).
Proof. intros st. simpl. auto. Qed.

Lemma grows_lift {A} (o : Outcome A) : grows (lift (num := num) o).
Proof. intros st. simpl. auto. Qed.

Lemma grows_call c : grows (call (num := num) c).
Proof. intros st. simpl. auto. Qed.

Lemma grows_bind {A B} (m : M num A) (k : A -> M num B) :
  grows m -> (forall a, grows (k a)) -> grows (bind m k).
Proof.
  intros Hm Hk st. unfold bind.
  destruct (Hm st) as (Hpre & Hc & Ht).
  destruct (m st) as [st1 [a | e]]; simpl in *.
  - destruct (Hk a st1) as (Hpre' & Hc' & Ht').
    split; [etrans; eassumption |]. split; congruence.
  - auto.
Qed.

(** What keeps every base, grows. *)
Lemma keeps_grows {A} (m : M num A) (Q : A -> Prop) :
  (forall base, keeps base m Q) -> grows m.
Proof.
  intros Hm st. destruct (Hm (heap st) st) as (Hpre & (Hc & Ht & _) & _);
    [reflexivity |]. auto.
Qed.

Lemma cache_loaded_grows {A} (m : M num A) st :
  grows m -> cache_loaded st -> cache_loaded (fst (m st)).
Proof.
  intros Hm Hst r Hr. destruct (Hm st) as (Hpre & Hc & _).
  rewrite Hc in Hr. destruct (Hst r Hr) as [items Hitems].
  exists items. eapply read_array_prefix; eassumption.
Qed.

End Binds.

Section Invocations.
Context {num : Type} `{JsNumber num}.
Implicit Types (st : State num) (env : Env num).

Lemma grows_get_array (r : nat) : grows (num := num) (get_array r).
Proof. apply (keeps_grows _ (fun _ => True)). intros base. apply keeps_get_array. Qed.

Lemma grows_findRelevantChunks q faq k : grows (findRelevantChunks q faq k).
Proof.
  apply (keeps_grows _ (fun _ => True)). intros base.
  apply keeps_findRelevantChunks.
Qed.

Lemma grows_buildContext (r : nat) : grows (num := num) (buildContext r).
Proof.
  apply (keeps_grows _ (fun _ => True)). intros base. unfold buildContext.
  eapply keeps_bind; [apply keeps_get_array |]. intros elems _.
  eapply keeps_bind; [apply keeps_for_each, keeps_get_object |]. intros objs _.
  apply keeps_ret. exact I.
Qed.

Lemma grows_generateEmbedding env text : grows (generateEmbedding env text).
Proof.
  unfold generateEmbedding. apply grows_bind; [apply grows_call |].
  intros _. apply grows_lift.
Qed.

Lemma grows_generateAnswer env question context :
  grows (generateAnswer env question context).
Proof.
  unfold generateAnswer. apply grows_bind; [apply grows_call |].
  intros _. apply grows_lift.
Qed.

Lemma keeps_loaded_grows {A} (m : M num A) : grows m -> keeps_loaded m.
Proof.
  intros Hm st. split; [apply Hm |]. apply cache_loaded_grows. exact Hm.
Qed.

Lemma keeps_loaded_bind {A B} (m : M num A) (k : A -> M num B) :
  keeps_loaded m -> (forall a, keeps_loaded (k a)) -> keeps_loaded (bind m k).
Proof.
  intros Hm Hk st. unfold bind. destruct (Hm st) as [Hpre Hc].
  destruct (m st) as [st1 [a | e]]; simpl in *; [| auto].
  destruct (Hk a st1) as [Hpre' Hc'].
  split; [etrans; eassumption | auto].
Qed.

Lemma keeps_loaded_try_catch {A} (m : M num A) (h : JsError -> M num A) :
  keeps_loaded m -> (forall e, keeps_loaded (h e)) ->
  keeps_loaded (try_catch m h).
Proof.
  intros Hm Hh st. unfold try_catch. destruct (Hm st) as [Hpre Hc].
  destruct (m st) as [st1 [a | e]]; simpl in *; [auto |].
  destruct (Hh e st1) as [Hpre' Hc'].
  split; [etrans; eassumption | auto].
Qed.

Lemma keeps_loaded_loadFaqEmbeddings env :
  keeps_loaded (loadFaqEmbeddings env).
Proof.
  intros st. unfold loadFaqEmbeddings.
  assert (Hfetch :
    heap st `prefix_of` heap (fst (fetchFaqEmbeddings env (Date_now env) st))
    /\ (cache_loaded st ->
        cache_loaded (fst (fetchFaqEmbeddings env (Date_now env) st)))).
  { rewrite fetchFaqEmbeddings_eq.
    destruct (s3_GetObject env) as [items | e]; simpl.
    - split; [apply prefix_app_r; reflexivity |].
      intros _ r [= <-]. exists items. apply read_array_collection.
    - split; [reflexivity |]. intros Hc r Hr. exact (Hc r Hr). }
  destruct (embeddingsCache st) as [cached |]; [| exact Hfetch].
  destruct (_ <? _)%Z; [| exact Hfetch].
  simpl. split; [reflexivity | auto].
Qed.

Lemma keeps_loaded_answer_question env q :
  keeps_loaded (answer_question env q).
Proof.
  unfold answer_question.
  apply keeps_loaded_bind; [apply keeps_loaded_loadFaqEmbeddings |].
  intros faq. apply keeps_loaded_grows.
  apply grows_bind; [apply grows_get_array |]. intros elems.
  destruct (Nat.eqb _ _); [apply grows_ret |].
  apply grows_bind; [apply grows_generateEmbedding |]. intros qe.
  apply grows_bind; [apply grows_findRelevantChunks |]. intros chunks.
  apply grows_bind; [apply grows_buildContext |]. intros context.
  apply grows_bind; [apply grows_generateAnswer |]. intros answer.
  apply grows_ret.
Qed.

Lemma keeps_loaded_handler env event : keeps_loaded (handler env event).
Proof.
  unfold handler. destruct (String.eqb _ _).
  { apply keeps_loaded_grows, grows_ret. }
  apply keeps_loaded_try_catch;
    [| intros e; apply keeps_loaded_grows, grows_ret].
  unfold handler_try.
  apply keeps_loaded_bind; [apply keeps_loaded_grows, grows_lift |].
  intros body.
  apply keeps_loaded_bind; [apply keeps_loaded_grows, grows_lift |].
  intros question.
  destruct (negb _); [apply keeps_loaded_grows, grows_ret |].
  destruct question as [[| | | q | |] |];
    try (apply keeps_loaded_grows, grows_throw).
  destruct (Nat.eqb _ _); [apply keeps_loaded_grows, grows_ret |].
  apply keeps_loaded_answer_question.
Qed.

(** The cached snapshot is fully loaded or absent, before and after every
    invocation, and an invocation only appends to the store: arrays and
    records that existed keep their content. *)
Theorem handler_keeps_cache_loaded env (event : Event) st :
  cache_loaded st ->
  cache_loaded (fst (handler env event st))
  /\ heap st `prefix_of` heap (fst (handler env event st)).
Proof.
  intros Hst. destruct (keeps_loaded_handler env event st) as [Hpre Hc].
  auto.
Qed.

Lemma yields_answer_question env q :
  yields (fun response => handler_status (statusCode response))
    (answer_question env q).
Proof.
  unfold answer_question.
  apply yields_bind. intros faq. apply yields_bind. intros elems.
  destruct (Nat.eqb _ _).
  { apply yields_ret. right; right; right. reflexivity. }
  apply yields_bind. intros qe. apply yields_bind. intros chunks.
  apply yields_bind. intros context. apply yields_bind. intros answer.
  apply yields_ret. left. reflexivity.
Qed.

Lemma yields_handler_try env event :
  yields (fun response => handler_status (statusCode response))
    (handler_try env event).
Proof.
  assert (H400 : handler_status (statusCode missing_question))
    by (right; left; reflexivity).
  unfold handler_try.
  apply yields_bind. intros body. apply yields_bind. intros question.
  destruct (negb _); [apply yields_ret; exact H400 |].
  destruct question as [[| | | q | |] |]; try apply yields_throw.
  destruct (Nat.eqb _ _); [apply yields_ret; exact H400 |].
  apply yields_answer_question.
Qed.

(** The handler never throws: every invocation returns a response, and its
    status is 200, 400, 500 or 503. *)
Theorem handler_always_responds env (event : Event) st :
  exists st' response,
    handler env event st = (st', Ok response)
    /\ handler_status (statusCode response).
Proof.
  unfold handler. destruct (String.eqb _ _).
  { eexists _, _. split; [reflexivity |]. left. reflexivity. }
  unfold try_catch. pose proof (yields_handler_try env event st) as Hy.
  destruct (handler_try env event st) as [st' [response | e]]; simpl in Hy.
  - eexists _, _. split; [reflexivity | exact Hy].
  - eexists _, _. split; [reflexivity |]. right; right; left. reflexivity.
Qed.

End Invocations.

Section Paths.
Context {num : Type} `{JsNumber num}.
Implicit Types (st : State num) (env : Env num).

Lemma string_length_zero (s : string) : String.length s = 0 -> s = "".
Proof. destruct s; [reflexivity | discriminate]. Qed.

(** A request with a non-blank question string reaches steps 1 to 5. *)
Lemma handler_asks env (event : Event) st q :
  httpMethod event <> "OPTIONS" ->
  request_question env event = Ok (Some (JString q)) ->
  trim q <> "" ->
  handler env event st
  = try_catch (answer_question env q) (fun error => ret (internal_error error))
      st.
Proof.
  intros Hmethod Hq Htrim.
  unfold handler. rewrite (proj2 (String.eqb_neq _ _) Hmethod).
  unfold request_question in Hq.
  unfold try_catch at 1. unfold handler_try, bind, lift.
  destruct (JSON_parse env (body_or_default event)) as [body | e];
    [| discriminate].
  simpl in Hq. rewrite Hq. simpl.
  destruct (String.eqb_spec q "") as [-> | _]; simpl.
  { exfalso. apply Htrim. reflexivity. }
  destruct (Nat.eqb_spec (String.length (trim q)) 0) as [Hz | _].
  { exfalso. apply Htrim, string_length_zero, Hz. }
  reflexivity.
Qed.

Lemma get_array_read st r items :
  read_array (heap st) r = Some items ->
  exists elems,
    get_array r st = (st, Ok elems) /\ length elems = length items.
Proof.
  intros Hread. apply read_array_spec in Hread as (elems & Hr & HF).
  exists elems. unfold get_array. rewrite Hr.
  split; [reflexivity | exact (Forall2_length _ _ _ HF)].
Qed.

(** [buildContext] reads the array and changes nothing. *)
Lemma buildContext_run st r (chunks : list (Item num)) :
  read_array (heap st) r = Some chunks ->
  buildContext r st = (st, Ok (join newline (imap context_entry chunks))).
Proof.
  intros Hread. apply read_array_spec in Hread as (elems & Hr & HF).
  unfold buildContext. unfold bind at 1. unfold get_array. rewrite Hr.
  unfold bind at 1. rewrite (for_each_get_object st elems chunks HF).
  reflexivity.
Qed.

Lemma score_all_copies (q : list num) (items scored : list (Item num)) :
  score_all q items = Ok scored -> Forall2 (scored_copy q) items scored.
Proof.
  revert scored. induction items as [| item items IH]; intros scored Hs;
    simpl in Hs.
  - injection Hs as <-. constructor.
  - destruct (cosineSimilarity q (embedding item)) as [s |] eqn:Hc;
      [| discriminate].
    simpl in Hs. destruct (score_all q items) as [tl |]; [| discriminate].
    simpl in Hs. injection Hs as <-.
    constructor; [exists s; auto | apply IH; reflexivity].
Qed.

Lemma score_all_mismatch (q : list num) (items : list (Item num)) :
  Exists (fun item => length (embedding item) <> length q) items ->
  score_all q items = Throw (Error "Vectors must have the same length").
Proof.
  induction items as [| item items IH]; intros Hex.
  - inversion Hex.
  - simpl.
    destruct (Nat.eq_dec (length q) (length (embedding item))) as [Heq | Hne].
    + destruct (cosineSimilarity_same_length q (embedding item) Heq)
        as [s ->]. simpl.
      rewrite IH; [reflexivity |].
      apply Exists_cons in Hex as [Hbad | Hex]; [congruence | exact Hex].
    + unfold cosineSimilarity.
      rewrite (proj2 (Nat.eqb_neq _ _) Hne). reflexivity.
Qed.

(** Steps 2 to 5 of [handler] on a loaded, non-empty snapshot. *)
Lemma answer_steps env q st r items elems qe :
  read_array (heap st) r = Some items ->
  get_array r st = (st, Ok elems) ->
  bedrock_embed env (trim q) = Ok qe ->
  (do questionEmbedding <- generateEmbedding env q;
   do relevantChunks <- findRelevantChunks questionEmbedding r 3;
   do context <- buildContext relevantChunks;
   do answer <- generateAnswer env q context;
   ret (corsResponse 200 (AnswerBody answer))) st
  = match score_all qe items with
    | Throw e =>
        (fst (findRelevantChunks qe r 3 (logged [BedrockEmbed (trim q)] st)),
         Throw e)
    | Ok scored =>
        let prompt := promptTemplate q (context_of scored) in
        (logged [BedrockGenerate prompt]
           (fst (findRelevantChunks qe r 3 (logged [BedrockEmbed (trim q)] st))),
         match bedrock_complete env prompt with
         | Ok answer => Ok (corsResponse 200 (AnswerBody answer))
         | Throw e => Throw e
         end)
    end.
Proof.
  intros Hread Hget Hembed.
  unfold bind at 1. unfold generateEmbedding. unfold bind at 1.
  unfold call at 1. unfold lift at 1. rewrite Hembed.
  change (mkState (heap st) (embeddingsCache st) (cacheTimestamp st)
            (calls st ++ [BedrockEmbed (trim q)]))
    with (logged [BedrockEmbed (trim q)] st).
  set (st1 := logged [BedrockEmbed (trim q)] st).
  pose proof (findRelevantChunks_run qe r 3 st1 items Hread) as Hrun.
  destruct (score_all qe items) as [scored | e].
  - destruct Hrun as (st2 & r2 & Hrun & Hres).
    rewrite slice0_nonneg in Hres by lia.
    unfold bind at 1. rewrite Hrun. simpl fst.
    unfold bind at 1. rewrite (buildContext_run st2 r2 _ Hres).
    unfold bind at 1. unfold generateAnswer. unfold bind at 1.
    unfold call at 1. unfold lift at 1.
    fold (context_of scored). cbv zeta.
    destruct (bedrock_complete env _); reflexivity.
  - destruct Hrun as (st2 & Hrun).
    unfold bind at 1. rewrite Hrun. reflexivity.
Qed.

End Paths.

Section PathTheorems.
Context {num : Type} `{JsNumber num}.
Implicit Types (st : State num) (env : Env num).

Lemma answer_question_loaded env q st st1 r items :
  loadFaqEmbeddings env st = (st1, Ok r) ->
  read_array (heap st1) r = Some items ->
  items <> [] ->
  exists elems,
    get_array r st1 = (st1, Ok elems)
    /\ answer_question env q st
       = (do questionEmbedding <- generateEmbedding env q;
          do relevantChunks <- findRelevantChunks questionEmbedding r 3;
          do context <- buildContext relevantChunks;
          do answer <- generateAnswer env q context;
          ret (corsResponse 200 (AnswerBody answer))) st1.
Proof.
  intros Hload Hread Hne.
  destruct (get_array_read st1 r items Hread) as (elems & Hget & Hlen).
  exists elems. split; [exact Hget |].
  unfold answer_question. rewrite (bind_ok _ _ _ _ _ Hload).
  rewrite (bind_ok _ _ _ _ _ Hget).
  destruct (Nat.eqb_spec (length elems) 0) as [Hz | _]; [| reflexivity].
  destruct items; [contradiction | simpl in Hlen; lia].
Qed.

Lemma retrieval_globals (q : list num) r k st :
  heap st `prefix_of` heap (fst (findRelevantChunks q r k st))
  /\ embeddingsCache (fst (findRelevantChunks q r k st)) = embeddingsCache st
  /\ cacheTimestamp (fst (findRelevantChunks q r k st)) = cacheTimestamp st
  /\ calls (fst (findRelevantChunks q r k st)) = calls st.
Proof.
  destruct (keeps_findRelevantChunks (heap st) q r k st)
    as (Hpre & (Hc & Ht & Hl) & _); [reflexivity |]. auto.
Qed.

(** The whole answer path.  Once the snapshot is loaded and not empty, the
    question is embedded (trimmed), the three best records make the
    context, and the response is the completion of the prompt for the
    untrimmed question, or status 500 with the provider's message when
    generation fails.  The calls are the embedding and then the generation;
    the cache variables and the snapshot are as the load left them. *)
Theorem handler_answers_from_top_three env (event : Event) st st1 q r
    (items : list (Item num)) (qe : list num) :
  httpMethod event <> "OPTIONS" ->
  request_question env event = Ok (Some (JString q)) ->
  trim q <> "" ->
  loadFaqEmbeddings env st = (st1, Ok r) ->
  read_array (heap st1) r = Some items ->
  items <> [] ->
  bedrock_embed env (trim q) = Ok qe ->
  Forall (fun item => length (embedding item) = length qe) items ->
  exists st' scored,
    Forall2 (scored_copy qe) items scored
    /\ handler env event st
       = (st',
          Ok match bedrock_complete env (promptTemplate q (context_of scored))
             with
             | Ok answer => corsResponse 200 (AnswerBody answer)
             | Throw e => internal_error e
             end)
    /\ calls st'
       = calls st1
         ++ [BedrockEmbed (trim q);
             BedrockGenerate (promptTemplate q (context_of scored))]
    /\ embeddingsCache st' = embeddingsCache st1
    /\ cacheTimestamp st' = cacheTimestamp st1
    /\ read_array (heap st') r = Some items.
Proof.
  intros Hmethod Hq Htrim Hload Hread Hne Hembed Hlens.
  destruct (answer_question_loaded env q st st1 r items Hload Hread Hne)
    as (elems & Hget & Hanswer).
  destruct (score_all_scored qe items Hlens) as (scored & Hs & HF).
  rewrite (handler_asks env event st q Hmethod Hq Htrim).
  unfold try_catch. rewrite Hanswer.
  rewrite (answer_steps env q st1 r items elems qe Hread Hget Hembed).
  rewrite Hs. cbv zeta.
  destruct (retrieval_globals qe r 3 (logged [BedrockEmbed (trim q)] st1))
    as (Hpre & Hc & Ht & Hl).
  set (st2 := fst (findRelevantChunks qe r 3
                     (logged [BedrockEmbed (trim q)] st1))) in *.
  exists (logged [BedrockGenerate (promptTemplate q (context_of scored))] st2),
    scored.
  split; [exact HF |]. split.
  { destruct (bedrock_complete env _); reflexivity. }
  simpl. rewrite Hl, Hc, Ht. simpl. rewrite <- app_assoc.
  repeat split; try reflexivity.
  eapply read_array_prefix; [exact Hpre | exact Hread].
Qed.

(** When the embedding provider fails, the response is status 500 with its
    message and generation is never called. *)
Theorem handler_embedding_failure env (event : Event) st st1 q r
    (items : list (Item num)) (e : JsError) :
  httpMethod event <> "OPTIONS" ->
  request_question env event = Ok (Some (JString q)) ->
  trim q <> "" ->
  loadFaqEmbeddings env st = (st1, Ok r) ->
  read_array (heap st1) r = Some items ->
  items <> [] ->
  bedrock_embed env (trim q) = Throw e ->
  handler env event st
  = (logged [BedrockEmbed (trim q)] st1, Ok (internal_error e)).
Proof.
  intros Hmethod Hq Htrim Hload Hread Hne Hembed.
  destruct (answer_question_loaded env q st st1 r items Hload Hread Hne)
    as (elems & Hget & Hanswer).
  rewrite (handler_asks env event st q Hmethod Hq Htrim).
  unfold try_catch. rewrite Hanswer.
  unfold bind at 1. unfold generateEmbedding. unfold bind at 1.
  unfold call at 1. unfold lift at 1. rewrite Hembed. reflexivity.
Qed.

(** A stored vector whose length differs from the question's embedding
    makes the handler answer 500 with the dimension message, after the
    embedding call and without a generation call. *)
Theorem handler_dimension_mismatch env (event : Event) st st1 q r
    (items : list (Item num)) (qe : list num) :
  httpMethod event <> "OPTIONS" ->
  request_question env event = Ok (Some (JString q)) ->
  trim q <> "" ->
  loadFaqEmbeddings env st = (st1, Ok r) ->
  read_array (heap st1) r = Some items ->
  bedrock_embed env (trim q) = Ok qe ->
  Exists (fun item => length (embedding item) <> length qe) items ->
  exists st',
    handler env event st
    = (st', Ok (internal_error (Error "Vectors must have the same length")))
    /\ calls st' = calls st1 ++ [BedrockEmbed (trim q)]
    /\ read_array (heap st') r = Some items.
Proof.
  intros Hmethod Hq Htrim Hload Hread Hembed Hbad.
  assert (Hne : items <> []) by (intros ->; inversion Hbad).
  destruct (answer_question_loaded env q st st1 r items Hload Hread Hne)
    as (elems & Hget & Hanswer).
  rewrite (handler_asks env event st q Hmethod Hq Htrim).
  unfold try_catch. rewrite Hanswer.
  rewrite (answer_steps env q st1 r items elems qe Hread Hget Hembed).
  rewrite (score_all_mismatch qe items Hbad).
  destruct (retrieval_globals qe r 3 (logged [BedrockEmbed (trim q)] st1))
    as (Hpre & _ & _ & Hl).
  eexists. split; [reflexivity |]. split; [exact Hl |].
  eapply read_array_prefix; [exact Hpre | exact Hread].
Qed.

(** An empty collection is answered with 503, and it is cached: from a
    cold start with an empty embeddings file the handler reads S3 once,
    and for the next hour every question gets 503 with no call at all,
    whatever S3 holds by then. *)
Theorem handler_empty_collection_cached env (event : Event) st q :
  httpMethod event <> "OPTIONS" ->
  request_question env event = Ok (Some (JString q)) ->
  trim q <> "" ->
  embeddingsCache st = None ->
  s3_GetObject env = Ok [] ->
  exists st1,
    handler env event st = (st1, Ok not_initialized)
    /\ calls st1 = calls st ++ [S3GetObject]
    /\ forall env' (event' : Event) q',
         httpMethod event' <> "OPTIONS" ->
         request_question env' event' = Ok (Some (JString q')) ->
         trim q' <> "" ->
         (Date_now env' - Date_now env < CACHE_DURATION)%Z ->
         handler env' event' st1 = (st1, Ok not_initialized).
Proof.
  intros Hmethod Hq Htrim Hcold Hs3.
  assert (Hload : loadFaqEmbeddings env st
                  = (mkState (heap st ++ [CArray []]) (Some (length (heap st)))
                       (Date_now env) (calls st ++ [S3GetObject]),
                     Ok (length (heap st)))).
  { unfold loadFaqEmbeddings. rewrite Hcold, fetchFaqEmbeddings_eq, Hs3.
    simpl. rewrite Nat.add_0_r. reflexivity. }
  set (st1 := mkState (heap st ++ [CArray []]) (Some (length (heap st)))
                (Date_now env) (calls st ++ [S3GetObject])) in *.
  assert (Hget : get_array (length (heap st)) st1 = (st1, Ok [])).
  { unfold get_array, st1. simpl.
    rewrite lookup_app_r, Nat.sub_diag by lia. reflexivity. }
  assert (Hempty : forall env' q' st0,
            loadFaqEmbeddings env' st0 = (st1, Ok (length (heap st))) ->
            answer_question env' q' st0 = (st1, Ok not_initialized)).
  { intros env' q' st0 Hl. unfold answer_question.
    rewrite (bind_ok _ _ _ _ _ Hl), (bind_ok _ _ _ _ _ Hget). reflexivity. }
  exists st1. split; [| split; [reflexivity |]].
  - rewrite (handler_asks env event st q Hmethod Hq Htrim).
    unfold try_catch. rewrite (Hempty env q st Hload). reflexivity.
  - intros env' event' q' Hmethod' Hq' Htrim' Hfresh.
    rewrite (handler_asks env' event' st1 q' Hmethod' Hq' Htrim').
    unfold try_catch. rewrite (Hempty env' q' st1); [reflexivity |].
    unfold loadFaqEmbeddings, st1. simpl.
    destruct (Z.ltb_spec (Date_now env' - Date_now env) CACHE_DURATION);
      [reflexivity | lia].
Qed.

(** After a successful fetch, any load within the next hour returns the
    same array and leaves the state as it is: no second read of S3. *)
Theorem loadFaqEmbeddings_reuses_fetch env env' st
    (items : list (Item num)) :
  embeddingsCache st = None
  \/ (CACHE_DURATION <= Date_now env - cacheTimestamp st)%Z ->
  s3_GetObject env = Ok items ->
  (Date_now env' - Date_now env < CACHE_DURATION)%Z ->
  exists st1 r,
    loadFaqEmbeddings env st = (st1, Ok r)
    /\ read_array (heap st1) r = Some items
    /\ loadFaqEmbeddings env' st1 = (st1, Ok r).
Proof.
  intros Hstale Hs3 Hfresh.
  assert (Hload : loadFaqEmbeddings env st
                  = fetchFaqEmbeddings env (Date_now env) st).
  { unfold loadFaqEmbeddings.
    destruct (embeddingsCache st) as [cached |]; [| reflexivity].
    destruct Hstale as [| Hstale]; [discriminate |].
    destruct (Z.ltb_spec (Date_now env - cacheTimestamp st) CACHE_DURATION);
      [lia | reflexivity]. }
  rewrite Hload, fetchFaqEmbeddings_eq, Hs3.
  eexists _, _. split; [reflexivity |].
  split; [apply read_array_collection |].
  unfold loadFaqEmbeddings. simpl.
  destruct (Z.ltb_spec (Date_now env' - Date_now env) CACHE_DURATION);
    [reflexivity | lia].
Qed.

(** Retrieval on a snapshot that holds a vector of another length than the
    query throws the dimension error: no partial result. *)
Theorem findRelevantChunks_dimension_error (q : list num) (faq : nat)
    (k : Z) st (items : list (Item num)) :
  read_array (heap st) faq = Some items ->
  Exists (fun item => length (embedding item) <> length q) items ->
  exists st',
    findRelevantChunks q faq k st
    = (st', Throw (Error "Vectors must have the same length")).
Proof.
  intros Hread Hbad.
  pose proof (findRelevantChunks_run q faq k st items Hread) as Hrun.
  rewrite (score_all_mismatch q items Hbad) in Hrun. exact Hrun.
Qed.

Lemma slice0_sublist {A} (l : list A) (k : Z) : slice0 l k `sublist_of` l.
Proof. unfold slice0. apply sublist_take. Qed.

(** Whatever [topK] is, what retrieval returns are scored copies of
    records of the snapshot, no more of them than the snapshot has: each
    has the id, text, vector and metadata of a stored record and that
    record's similarity to the query. *)
Theorem findRelevantChunks_returns_scored_copies (q : list num) (faq : nat)
    (k : Z) st st' r (items : list (Item num)) :
  read_array (heap st) faq = Some items ->
  findRelevantChunks q faq k st = (st', Ok r) ->
  exists result,
    read_array (heap st') r = Some result
    /\ length result <= length items
    /\ Forall (fun x => exists item, item ∈ items /\ scored_copy q item x)
         result.
Proof.
  intros Hread Hrun.
  pose proof (findRelevantChunks_run q faq k st items Hread) as Hspec.
  destruct (score_all q items) as [scored |] eqn:Hs.
  - destruct Hspec as (st2 & r2 & Hrun2 & Hres).
    rewrite Hrun in Hrun2. injection Hrun2 as <- <-.
    pose proof (score_all_copies q items scored Hs) as HF.
    exists (slice0 (js_sort by_similarity scored) k).
    split; [exact Hres |]. split.
    + rewrite (sublist_length _ _ (slice0_sublist _ k)), js_sort_length.
      rewrite <- (Forall2_length _ _ _ HF). reflexivity.
    + unfold slice0. apply Forall_take.
      rewrite js_sort_perm. apply Forall_forall. intros x Hx.
      apply list_elem_of_lookup in Hx as [i Hi].
      destruct (Forall2_lookup_r _ _ _ _ _ HF Hi) as (item & Hitem & Hcopy).
      exists item. split; [| exact Hcopy].
      apply list_elem_of_lookup. eauto.
  - destruct Hspec as (st2 & Hrun2). rewrite Hrun in Hrun2. discriminate.
Qed.

End PathTheorems.

Lemma handler_keeps_cache_loaded_witness :
  let env :=
    chat_env sample_question 1000 (Ok sample_items)
      (Ok [1%float; 1%float]) (Ok "Go to Settings.") in
  cache_loaded (cold_state (num := float))
  /\ cache_loaded (fst (handler env post cold_state))
  /\ heap (cold_state (num := float))
       `prefix_of` heap (fst (handler env post cold_state)).
Proof.
  assert (Hcold : cache_loaded (cold_state (num := float)))
    by (intros r Hr; discriminate).
  split; [exact Hcold |].
  exact (handler_keeps_cache_loaded
           (chat_env sample_question 1000 (Ok sample_items)
              (Ok [1%float; 1%float]) (Ok "Go to Settings."))
           post cold_state Hcold).
Defined.

Lemma handler_answers_from_top_three_witness :
  let env :=
    chat_env sample_question 1000 (Ok [])
      (Ok [1%float; 1%float]) (Ok "Go to Settings.") in
  httpMethod post <> "OPTIONS"
  /\ request_question env post = Ok (Some (JString sample_question))
  /\ trim sample_question <> ""
  /\ loadFaqEmbeddings env warm_state = (warm_state, Ok 3)
  /\ read_array (heap warm_state) 3 = Some sample_items
  /\ sample_items <> []
  /\ bedrock_embed env (trim sample_question) = Ok [1%float; 1%float]
  /\ Forall (fun item => length (embedding item) = length [1%float; 1%float])
       sample_items
  /\ exists st' scored,
       Forall2 (scored_copy [1%float; 1%float]) sample_items scored
       /\ handler env post warm_state
          = (st',
             Ok match
                  bedrock_complete env
                    (promptTemplate sample_question (context_of scored))
                with
                | Ok answer => corsResponse 200 (AnswerBody answer)
                | Throw e => internal_error e
                end)
       /\ calls st'
          = calls warm_state
            ++ [BedrockEmbed (trim sample_question);
                BedrockGenerate
                  (promptTemplate sample_question (context_of scored))]
       /\ embeddingsCache st' = embeddingsCache warm_state
       /\ cacheTimestamp st' = cacheTimestamp warm_state
       /\ read_array (heap st') 3 = Some sample_items.
Proof.
  split; [discriminate |]. split; [reflexivity |].
  split; [vm_compute; discriminate |]. split; [reflexivity |].
  split; [reflexivity |]. split; [discriminate |].
  split; [reflexivity |]. split; [repeat constructor |].
  apply (handler_answers_from_top_three
           (chat_env sample_question 1000 (Ok [])
              (Ok [1%float; 1%float]) (Ok "Go to Settings."))
           post warm_state warm_state sample_question 3 sample_items
           [1%float; 1%float]);
    [discriminate | reflexivity | vm_compute; discriminate | reflexivity
    | reflexivity | discriminate | reflexivity | repeat constructor].
Defined.

Lemma handler_embedding_failure_witness :
  let env :=
    chat_env sample_question 1000 (Ok [])
      (Throw ServiceUnavailable) (Ok "Go to Settings.") in
  httpMethod post <> "OPTIONS"
  /\ request_question env post = Ok (Some (JString sample_question))
  /\ trim sample_question <> ""
  /\ loadFaqEmbeddings env warm_state = (warm_state, Ok 3)
  /\ read_array (heap warm_state) 3 = Some sample_items
  /\ sample_items <> []
  /\ bedrock_embed env (trim sample_question) = Throw ServiceUnavailable
  /\ handler env post warm_state
     = (logged [BedrockEmbed (trim sample_question)] warm_state,
        Ok (internal_error ServiceUnavailable)).
Proof.
  split; [discriminate |]. split; [reflexivity |].
  split; [vm_compute; discriminate |]. split; [reflexivity |].
  split; [reflexivity |]. split; [discriminate |]. split; [reflexivity |].
  apply (handler_embedding_failure
           (chat_env sample_question 1000 (Ok [])
              (Throw ServiceUnavailable) (Ok "Go to Settings."))
           post warm_state warm_state sample_question 3 sample_items
           ServiceUnavailable);
    [discriminate | reflexivity | vm_compute; discriminate | reflexivity
    | reflexivity | discriminate | reflexivity].
Defined.

Lemma handler_dimension_mismatch_witness :
  let env :=
    chat_env sample_question 1000 (Ok [])
      (Ok [1%float]) (Ok "Go to Settings.") in
  httpMethod post <> "OPTIONS"
  /\ request_question env post = Ok (Some (JString sample_question))
  /\ trim sample_question <> ""
  /\ loadFaqEmbeddings env warm_state = (warm_state, Ok 3)
  /\ read_array (heap warm_state) 3 = Some sample_items
  /\ bedrock_embed env (trim sample_question) = Ok [1%float]
  /\ Exists (fun item => length (embedding item) <> length [1%float])
       sample_items
  /\ exists st',
       handler env post warm_state
       = (st',
          Ok (internal_error (Error "Vectors must have the same length")))
       /\ calls st'
          = calls warm_state ++ [BedrockEmbed (trim sample_question)]
       /\ read_array (heap st') 3 = Some sample_items.
Proof.
  split; [discriminate |]. split; [reflexivity |].
  split; [vm_compute; discriminate |]. split; [reflexivity |].
  split; [reflexivity |]. split; [reflexivity |].
  split; [left; simpl; lia |].
  apply (handler_dimension_mismatch
           (chat_env sample_question 1000 (Ok [])
              (Ok [1%float]) (Ok "Go to Settings."))
           post warm_state warm_state sample_question 3 sample_items
           [1%float]);
    [discriminate | reflexivity | vm_compute; discriminate | reflexivity
    | reflexivity | reflexivity | left; simpl; lia].
Defined.

Lemma handler_empty_collection_cached_witness :
  let env :=
    chat_env sample_question 1000 (Ok [])
      (Ok [1%float; 1%float]) (Ok "Go to Settings.") in
  httpMethod post <> "OPTIONS"
  /\ request_question env post = Ok (Some (JString sample_question))
  /\ trim sample_question <> ""
  /\ embeddingsCache (cold_state (num := float)) = None
  /\ s3_GetObject env = Ok []
  /\ exists st1,
       handler env post cold_state = (st1, Ok not_initialized)
       /\ calls st1 = calls (cold_state (num := float)) ++ [S3GetObject]
       /\ forall env' (event' : Event) q',
            httpMethod event' <> "OPTIONS" ->
            request_question env' event' = Ok (Some (JString q')) ->
            trim q' <> "" ->
            (Date_now env' - Date_now env < CACHE_DURATION)%Z ->
            handler env' event' st1 = (st1, Ok not_initialized).
Proof.
  split; [discriminate |]. split; [reflexivity |].
  split; [vm_compute; discriminate |]. split; [reflexivity |].
  split; [reflexivity |].
  apply (handler_empty_collection_cached
           (chat_env sample_question 1000 (Ok [])
              (Ok [1%float; 1%float]) (Ok "Go to Settings."))
           post cold_state sample_question);
    [discriminate | reflexivity | vm_compute; discriminate | reflexivity
    | reflexivity].
Defined.

Lemma loadFaqEmbeddings_reuses_fetch_witness :
  let env :=
    chat_env sample_question 1000 (Ok sample_items)
      (Ok [1%float; 1%float]) (Ok "Go to Settings.") in
  let env' :=
    chat_env sample_question 2000 (Ok [])
      (Ok [1%float; 1%float]) (Ok "Go to Settings.") in
  (embeddingsCache (cold_state (num := float)) = None
   \/ (CACHE_DURATION <= Date_now env - cacheTimestamp (cold_state (num := float)))%Z)
  /\ s3_GetObject env = Ok sample_items
  /\ (Date_now env' - Date_now env < CACHE_DURATION)%Z
  /\ exists st1 r,
       loadFaqEmbeddings env cold_state = (st1, Ok r)
       /\ read_array (heap st1) r = Some sample_items
       /\ loadFaqEmbeddings env' st1 = (st1, Ok r).
Proof.
  split; [left; reflexivity |]. split; [reflexivity |].
  split; [reflexivity |].
  apply (loadFaqEmbeddings_reuses_fetch
           (chat_env sample_question 1000 (Ok sample_items)
              (Ok [1%float; 1%float]) (Ok "Go to Settings."))
           (chat_env sample_question 2000 (Ok [])
              (Ok [1%float; 1%float]) (Ok "Go to Settings."))
           cold_state sample_items);
    [left; reflexivity | reflexivity | reflexivity].
Defined.

Lemma findRelevantChunks_dimension_error_witness :
  read_array (heap warm_state) 3 = Some sample_items
  /\ Exists (fun item => length (embedding item) <> length [1%float])
       sample_items
  /\ exists st',
       findRelevantChunks [1%float] 3 3 warm_state
       = (st', Throw (Error "Vectors must have the same length")).
Proof.
  split; [reflexivity |]. split; [left; simpl; lia |].
  apply (findRelevantChunks_dimension_error [1%float] 3 3 warm_state
           sample_items);
    [reflexivity | left; simpl; lia].
Defined.

Lemma findRelevantChunks_returns_scored_copies_witness :
  let q := [1%float; 1%float] in
  let st' := fst (findRelevantChunks q 3 (-1) warm_state) in
  read_array (heap warm_state) 3 = Some sample_items
  /\ findRelevantChunks q 3 (-1) warm_state = (st', Ok 8)
  /\ exists result,
       read_array (heap st') 8 = Some result
       /\ length result <= length sample_items
       /\ Forall
            (fun x => exists item, item ∈ sample_items /\ scored_copy q item x)
            result.
Proof.
  split; [reflexivity |]. split; [vm_compute; reflexivity |].
  apply (findRelevantChunks_returns_scored_copies [1%float; 1%float] 3 (-1)
           warm_state
           (fst (findRelevantChunks [1%float; 1%float] 3 (-1) warm_state))
           8 sample_items);
    [reflexivity | vm_compute; reflexivity].
Defined.
